(** * datamerge.py: a shallow embedding of the merge-and-reconcile engine

    The Python module works on pandas DataFrames.  A DataFrame is modelled
    as a list of column labels and a list of rows, each row a list of cells
    aligned with the labels.  A cell is [None] for a missing value (NaN /
    None / NA in pandas) and [Some s] otherwise; all columns share this one
    cell type, so pandas dtypes are not modelled.

    Strings (column labels, cell contents) are Rocq strings, whose
    characters are read as the Latin-1 code points U+0000..U+00FF of a
    Python [str]. *)

From Stdlib Require Import List String Ascii Bool Arith ZArith Lia DecimalString.
Import ListNotations.
Open Scope string_scope.
Open Scope list_scope.

(* ------------------------------------------------------------------ *)
(** ** Data model *)

Definition cell := option string.

Record table := mk_table {
  columns : list string;
  rows : list (list cell)
}.

(** Python exceptions raised by the module (and by the pandas calls it
    makes), with their messages kept as structured data.  [OSError]
    stands for whatever [pd.read_csv] raises on a missing or unreadable
    file (FileNotFoundError, ParserError, ...). *)
Inductive message :=
| Msg_keys_not_found (missing : list string)
    (* drop_dupes_on: f"Keys not found in dataframe: {missing}" *)
| Msg_join_keys_missing (missing_left missing_right : list string)
    (* merge_frames: f"Join keys missing - left:{missing_left} right:{missing_right}" *)
| Msg_no_merge_column
    (* audit_counts: "No _merge column found. Call merge_frames(..., indicator=True)." *)
| Msg_unknown_strategy (strategy base : string)
    (* resolve_conflicts: f"Unknown strategy '{strategy}' for column '{base}'. ..." *)
| Msg_keep_invalid
    (* pandas drop_duplicates: "keep must be either 'first', 'last' or False" *)
| Msg_validate_invalid (token : string)
    (* pandas merge: f'"{validate}" is not a valid argument. ...' *)
| Msg_not_unique (where_ kind : string)
    (* pandas merge: f"Merge keys are not unique in {where_} dataset; not a {kind} merge" *)
| Msg_indicator_column (name : string)
    (* pandas merge, indicator=True, a column of that name already exists *)
| Msg_overlap_no_suffix
    (* pandas merge: "columns overlap but no suffix specified" *)
| Msg_duplicate_suffix (dups : list string)
    (* pandas merge: "Passing 'suffixes' which cause duplicate columns ..." *)
| Msg_dtype_not_understood (dtype : string)
    (* pandas astype: f"data type '{dtype}' not understood" *)
| Msg_io (detail : string).

Inductive exn :=
| KeyError (m : message)
| ValueError (m : message)
| MergeError (m : message)
| TypeError (m : message)
| OSError (m : message).

Inductive result (A : Type) :=
| Ok (a : A)
| Err (e : exn).
Arguments Ok {A} a.
Arguments Err {A} e.

(** Lines written to [sys.stderr]. *)
Inductive diag :=
| Info_removed (n : nat) (keys : list string)
    (* f"[INFO] drop_dupes_on: removed {n} duplicate rows based on {keys}." *)
| Warn_cast (col dtype : string) (cause : exn)
    (* f"[WARN] Could not cast column '{col}' to {dtype}: {e}" *)
| Warn_dates (col : string) (cause : exn).
    (* f"[WARN] Could not parse dates for '{col}': {e}" *)

(* ------------------------------------------------------------------ *)
(** ** Column access: [df[c]] and [df[c] = values] *)

Fixpoint index_of (c : string) (cs : list string) : option nat :=
  match cs with
  | [] => None
  | c' :: cs' =>
      if String.eqb c c' then Some 0
      else option_map S (index_of c cs')
  end.

Definition mem (c : string) (cs : list string) : bool :=
  existsb (String.eqb c) cs.

(** The cell of a row under label [c] (first column with that label). *)
Definition get (cs : list string) (row : list cell) (c : string) : cell :=
  match index_of c cs with
  | Some i => nth i row None
  | None => None
  end.

(** [df[c]] as a list of cells. *)
Definition column (t : table) (c : string) : list cell :=
  map (fun r => get (columns t) r c) (rows t).

Fixpoint replace_nth {A} (i : nat) (x : A) (l : list A) : list A :=
  match l, i with
  | [], _ => []
  | _ :: l', 0 => x :: l'
  | y :: l', S i' => y :: replace_nth i' x l'
  end.

(** [df[c] = values]: overwrite the column labelled [c] in place, or
    append a new column [c] at the right end. *)
Definition set_col (t : table) (c : string) (vals : list cell) : table :=
  match index_of c (columns t) with
  | Some i =>
      mk_table (columns t)
               (map (fun p => replace_nth i (snd p) (fst p)) (combine (rows t) vals))
  | None =>
      mk_table (columns t ++ [c])
               (map (fun p => fst p ++ [snd p]) (combine (rows t) vals))
  end.

(* ------------------------------------------------------------------ *)
(** ** normalize_columns *)

(** Python [str.isspace] on U+0000..U+00FF. *)
Definition py_isspace (c : ascii) : bool :=
  let n := nat_of_ascii c in
  (((9 <=? n) && (n <=? 13)) || ((28 <=? n) && (n <=? 32))
   || (n =? 133) || (n =? 160))%nat.

(** Python [str.lower] on U+0000..U+00FF. *)
Definition py_lower_char (c : ascii) : ascii :=
  let n := nat_of_ascii c in
  if (((65 <=? n) && (n <=? 90)) || ((192 <=? n) && (n <=? 214))
      || ((216 <=? n) && (n <=? 222)))%nat
  then ascii_of_nat (n + 32)%nat else c.

Fixpoint str_map (f : ascii -> ascii) (s : string) : string :=
  match s with
  | EmptyString => EmptyString
  | String c s' => String (f c) (str_map f s')
  end.

Fixpoint py_lstrip (s : string) : string :=
  match s with
  | EmptyString => EmptyString
  | String c s' => if py_isspace c then py_lstrip s' else s
  end.

Fixpoint py_rstrip (s : string) : string :=
  match s with
  | EmptyString => EmptyString
  | String c s' =>
      let t := py_rstrip s' in
      match t with
      | EmptyString => if py_isspace c then EmptyString else String c EmptyString
      | _ => String c t
      end
  end.

(** [s.strip()] *)
Definition py_strip (s : string) : string := py_rstrip (py_lstrip s).

(** [s.lower()] *)
Definition py_lower (s : string) : string := str_map py_lower_char s.

Definition space_to_underscore (c : ascii) : ascii :=
  if Ascii.eqb c " "%char then "_"%char else c.

(** [s.replace(" ", "_")] *)
Definition py_replace_spaces (s : string) : string :=
  str_map space_to_underscore s.

Definition clean (lower strip spaces_to_underscores : bool) (col : string) : string :=
  let new := col in
  let new := if strip then py_strip new else new in
  let new := if lower then py_lower new else new in
  let new := if spaces_to_underscores then py_replace_spaces new else new in
  new.

(** [df.rename(columns={c: _clean(c) for c in df.columns})]: every label
    is mapped through [_clean]; the rows are not touched. *)
Definition normalize_columns (df : table)
    (lower strip spaces_to_underscores : bool) : table :=
  mk_table (map (clean lower strip spaces_to_underscores) (columns df)) (rows df).

(* ------------------------------------------------------------------ *)
(** ** Key tuples *)

Definition cell_eqb (a b : cell) : bool :=
  match a, b with
  | None, None => true
  | Some x, Some y => String.eqb x y
  | _, _ => false
  end.

Fixpoint key_eqb (a b : list cell) : bool :=
  match a, b with
  | [], [] => true
  | x :: a', y :: b' => cell_eqb x y && key_eqb a' b'
  | _, _ => false
  end.

(** The key tuple of a row: the cells under the key labels [on].  Missing
    values compare equal to each other, as in pandas joins and
    [duplicated]. *)
Definition key_of (cs : list string) (on : list string) (r : list cell) : list cell :=
  map (get cs r) on.

Definition keys_of (t : table) (on : list string) : list (list cell) :=
  map (key_of (columns t) on) (rows t).

Definition has_key (k : list cell) (ks : list (list cell)) : bool :=
  existsb (key_eqb k) ks.

(** How many key tuples of [ks] equal [k]. *)
Definition key_count (k : list cell) (ks : list (list cell)) : nat :=
  List.length (filter (key_eqb k) ks).

(* ------------------------------------------------------------------ *)
(** ** Writer-and-error monad: stderr lines and exceptions *)

Definition M (A : Type) : Type := (list diag * result A)%type.

Definition ret {A} (a : A) : M A := ([], Ok a).
Definition raise {A} (e : exn) : M A := ([], Err e).
Definition tell (d : diag) : M unit := ([d], Ok tt).

Definition bind {A B} (m : M A) (k : A -> M B) : M B :=
  match m with
  | (l, Ok a) => let (l2, r) := k a in (l ++ l2, r)
  | (l, Err e) => (l, Err e)
  end.

Notation "x <- m ;; k" := (bind m (fun x => k))
  (at level 61, m at next level, right associativity).

Definition lift {A} (r : result A) : M A := ([], r).

(* ------------------------------------------------------------------ *)
(** ** drop_dupes_on *)

(** pandas [duplicated(subset, keep="last")] negated: a row is kept when
    no later row has the same key tuple. *)
Fixpoint keep_last (kf : list cell -> list cell) (rs : list (list cell))
    : list (list cell) :=
  match rs with
  | [] => []
  | r :: rs' =>
      if has_key (kf r) (map kf rs') then keep_last kf rs'
      else r :: keep_last kf rs'
  end.

(** [keep="first"]: a row is kept when no earlier row has the same key. *)
Fixpoint keep_first_aux (kf : list cell -> list cell) (seen : list (list cell))
    (rs : list (list cell)) : list (list cell) :=
  match rs with
  | [] => []
  | r :: rs' =>
      if has_key (kf r) seen then keep_first_aux kf seen rs'
      else r :: keep_first_aux kf (kf r :: seen) rs'
  end.

(** [df.drop_duplicates(subset=keys, keep=keep)].  Not modelled: pandas
    raises [ValueError] for [subset=[]] on a non-empty frame (here one row
    is kept), and returns an empty frame unchanged whatever [keep] is
    (here an unknown [keep] raises).  The theorems about [keep="first"]
    assume a non-empty key list. *)
Definition drop_duplicates (df : table) (keys : list string) (keep : string)
    : result table :=
  let kf := key_of (columns df) keys in
  if String.eqb keep "first" then Ok (mk_table (columns df) (keep_first_aux kf [] (rows df)))
  else if String.eqb keep "last" then Ok (mk_table (columns df) (keep_last kf (rows df)))
  else Err (ValueError Msg_keep_invalid).

Definition drop_dupes_on (df : table) (keys : list string) (keep : string) : M table :=
  let missing := filter (fun k => negb (mem k (columns df))) keys in
  match missing with
  | _ :: _ => raise (KeyError (Msg_keys_not_found missing))
  | [] =>
      let before := List.length (rows df) in
      out <- lift (drop_duplicates df keys keep) ;;
      let after := List.length (rows out) in
      _ <- (if Nat.eqb after before then ret tt
            else tell (Info_removed (before - after) keys)) ;;
      ret out
  end.

(* ------------------------------------------------------------------ *)
(** ** pandas.merge, as called by merge_frames with [on=keys] *)

Inductive join_how := Inner | Left | Right | Outer.

Inductive tag := LeftOnly | RightOnly | Both.

Definition tag_str (t : tag) : string :=
  match t with
  | LeftOnly => "left_only"
  | RightOnly => "right_only"
  | Both => "both"
  end.

(** [validate=]: the accepted spellings and the uniqueness each demands
    ([Index.is_unique] on the key tuples of a whole side). *)
Fixpoint is_unique (ks : list (list cell)) : bool :=
  match ks with
  | [] => true
  | k :: ks' => negb (has_key k ks') && is_unique ks'
  end.

Definition check_validate (validate : option string) (kl kr : list (list cell))
    : option exn :=
  match validate with
  | None => None
  | Some tok =>
      let lu := is_unique kl in
      let ru := is_unique kr in
      if mem tok ["one_to_one"; "1:1"] then
        if negb lu && negb ru then
          Some (MergeError (Msg_not_unique "either left or right" "one-to-one"))
        else if negb lu then Some (MergeError (Msg_not_unique "left" "one-to-one"))
        else if negb ru then Some (MergeError (Msg_not_unique "right" "one-to-one"))
        else None
      else if mem tok ["one_to_many"; "1:m"] then
        if negb lu then Some (MergeError (Msg_not_unique "left" "one-to-many"))
        else None
      else if mem tok ["many_to_one"; "m:1"] then
        if negb ru then Some (MergeError (Msg_not_unique "right" "many-to-one"))
        else None
      else if mem tok ["many_to_many"; "m:m"] then None
      else Some (ValueError (Msg_validate_invalid tok))
  end.

(** [indicator=True] refuses inputs that already carry one of the
    helper columns or the indicator column. *)
Definition indicator_check (cs : list string) : option exn :=
  if mem "_left_indicator" cs then Some (ValueError (Msg_indicator_column "_left_indicator"))
  else if mem "_right_indicator" cs then Some (ValueError (Msg_indicator_column "_right_indicator"))
  else if mem "_merge" cs then Some (ValueError (Msg_indicator_column "_merge"))
  else None.

(** The right frame's key columns are dropped (they are unified with the
    left ones); the remaining labels shared with the left get suffixes. *)
Definition right_nonkey (R : table) (on : list string) : list string :=
  filter (fun c => negb (mem c on)) (columns R).

Definition overlap (L R : table) (on : list string) : list string :=
  filter (fun c => mem c (right_nonkey R on)) (columns L).

Definition relabel (ov : list string) (suffix : string) (c : string) : string :=
  if mem c ov then (c ++ suffix)%string else c.

Fixpoint dup_flags_aux (seen : list string) (cs : list string) : list bool :=
  match cs with
  | [] => []
  | c :: cs' => mem c seen :: dup_flags_aux (c :: seen) cs'
  end.

(** [Index.duplicated()]: true at every label seen earlier. *)
Definition dup_flags (cs : list string) : list bool := dup_flags_aux [] cs.

(** [llabels[llabels.duplicated() & ~left.duplicated()]] *)
Definition new_dups (orig relab : list string) : list string :=
  map fst (filter (fun p => fst (snd p) && negb (snd (snd p)))
                  (combine relab (combine (dup_flags relab) (dup_flags orig)))).

Definition is_nil {A} (l : list A) : bool :=
  match l with [] => true | _ => false end.

(** A row cut or padded with missing values to [n] cells. *)
Definition fit (n : nat) (r : list cell) : list cell :=
  firstn n (r ++ repeat None n).

(** Output row pieces: all left cells; the right cells of the non-key
    columns; for a row found only on the right, the left block holds the
    right row's key values under the key labels and missing values
    elsewhere. *)
Definition left_part (L : table) (l : list cell) : list cell :=
  fit (List.length (columns L)) l.

Definition right_part (R : table) (on : list string) (r : list cell) : list cell :=
  map snd (filter (fun p => negb (mem (fst p) on))
                  (combine (columns R) (fit (List.length (columns R)) r))).

Definition right_only_left_part (L R : table) (on : list string) (r : list cell)
    : list cell :=
  map (fun c => if mem c on then get (columns R) r c else None) (columns L).

Definition matches_right (L R : table) (on : list string) (l : list cell)
    : list (list cell) :=
  filter (fun r => key_eqb (key_of (columns L) on l) (key_of (columns R) on r)) (rows R).

Definition matches_left (L R : table) (on : list string) (r : list cell)
    : list (list cell) :=
  filter (fun l => key_eqb (key_of (columns L) on l) (key_of (columns R) on r)) (rows L).

Definition both_row (L R : table) (on : list string) (l r : list cell) : list cell * tag :=
  (left_part L l ++ right_part R on r, Both).

Definition left_only_row (L R : table) (on : list string) (l : list cell) : list cell * tag :=
  (left_part L l ++ repeat None (List.length (right_nonkey R on)), LeftOnly).

Definition right_only_row (L R : table) (on : list string) (r : list cell) : list cell * tag :=
  (right_only_left_part L R on r ++ right_part R on r, RightOnly).

Definition left_rows (L R : table) (on : list string) : list (list cell * tag) :=
  flat_map (fun l => match matches_right L R on l with
                     | [] => [left_only_row L R on l]
                     | ms => map (both_row L R on l) ms
                     end) (rows L).

(** The joined rows with their provenance.  Inner and left joins follow
    the left row order, right joins the right row order.  For [outer]
    pandas sorts the result by key; that order is not modelled here (the
    rows are the left join's followed by the right-only ones). *)
Definition join_rows (how : join_how) (L R : table) (on : list string)
    : list (list cell * tag) :=
  match how with
  | Inner => flat_map (fun l => map (both_row L R on l) (matches_right L R on l)) (rows L)
  | Left => left_rows L R on
  | Right =>
      flat_map (fun r => match matches_left L R on r with
                         | [] => [right_only_row L R on r]
                         | ms => map (fun l => both_row L R on l r) ms
                         end) (rows R)
  | Outer =>
      left_rows L R on
      ++ map (right_only_row L R on)
             (filter (fun r => is_nil (matches_left L R on r)) (rows R))
  end.

(** [pd.merge(left, right, how=how, on=on, suffixes=suffixes,
    validate=validate, indicator=indicator)], in pandas' order of checks:
    [validate] (while building the merge), the indicator column names,
    the suffixes, then the join; with [indicator] the column [_merge] is
    assigned last ([result["_merge"] = ...]).  Not modelled: pandas fails
    for [on=[]] (here every left row meets every right row), and when the
    suffixes turn two overlapping columns into [_merge] (here the first of
    them is overwritten). *)
Definition pd_merge (L R : table) (how : join_how) (on : list string)
    (suffixes : string * string) (validate : option string) (indicator : bool)
    : result table :=
  match check_validate validate (keys_of L on) (keys_of R on) with
  | Some e => Err e
  | None =>
  match (if indicator then indicator_check (columns L ++ columns R) else None) with
  | Some e => Err e
  | None =>
  let (lsuffix, rsuffix) := suffixes in
  let rn := right_nonkey R on in
  let ov := overlap L R on in
  if negb (is_nil ov) && String.eqb lsuffix "" && String.eqb rsuffix "" then
    Err (ValueError Msg_overlap_no_suffix)
  else
  let llabels := map (relabel ov lsuffix) (columns L) in
  let rlabels := map (relabel ov rsuffix) rn in
  let dups := new_dups (columns L) llabels ++ new_dups rn rlabels in
  if negb (is_nil dups) then Err (MergeError (Msg_duplicate_suffix dups))
  else
  let jr := join_rows how L R on in
  let t := mk_table (llabels ++ rlabels) (map fst jr) in
  Ok (if indicator then set_col t "_merge" (map (fun p => Some (tag_str (snd p))) jr)
      else t)
  end end.

(* ------------------------------------------------------------------ *)
(** ** merge_frames *)

Definition merge_frames (left right : table) (on : list string) (how : join_how)
    (validate : option string) (suffixes : string * string) (indicator : bool)
    : result table :=
  let missing_left := filter (fun k => negb (mem k (columns left))) on in
  let missing_right := filter (fun k => negb (mem k (columns right))) on in
  if negb (is_nil missing_left) || negb (is_nil missing_right) then
    Err (KeyError (Msg_join_keys_missing missing_left missing_right))
  else pd_merge left right how on suffixes validate indicator.

(* ------------------------------------------------------------------ *)
(** ** resolve_conflicts *)

(** [df[left_col].where(df[left_col].notna(), df[right_col])] per row *)
Definition coalesce (a b : cell) : cell :=
  match a with
  | Some _ => a
  | None => b
  end.

(** One iteration of the loop over [base_to_strategy.items()]. *)
Definition resolve_one (df : table) (base strategy : string)
    (suffixes : string * string) : result table :=
  let (l_suf, r_suf) := suffixes in
  let left_col := (base ++ l_suf)%string in
  let right_col := (base ++ r_suf)%string in
  if negb (mem left_col (columns df)) || negb (mem right_col (columns df)) then Ok df
  else
    let out_col := base in
    if String.eqb strategy "left" then Ok (set_col df out_col (column df left_col))
    else if String.eqb strategy "right" then Ok (set_col df out_col (column df right_col))
    else if String.eqb strategy "coalesce" then
      Ok (set_col df out_col
            (map (fun p => coalesce (fst p) (snd p))
                 (combine (column df left_col) (column df right_col))))
    else Err (ValueError (Msg_unknown_strategy strategy base)).

(** The function mutates [df] in place.  It returns the state of that
    object when it finishes, together with the exception it raised, if
    any: on an exception the columns written by earlier iterations stay
    in the caller's table. *)
Fixpoint resolve_conflicts (df : table) (base_to_strategy : list (string * string))
    (suffixes : string * string) : table * option exn :=
  match base_to_strategy with
  | [] => (df, None)
  | (base, strategy) :: rest =>
      match resolve_one df base strategy suffixes with
      | Ok df' => resolve_conflicts df' rest suffixes
      | Err e => (df, Some e)
      end
  end.

(* ------------------------------------------------------------------ *)
(** ** audit_counts *)

Record counts := mk_counts {
  left_only : nat;
  right_only : nat;
  both : nat;
  total_rows : nat
}.

(** [value_counts(dropna=False).get(v, 0)] *)
Definition count_value (v : string) (cs : list cell) : nat :=
  List.length (filter (fun c => cell_eqb c (Some v)) cs).

Definition audit_counts (merged : table) : result counts :=
  if negb (mem "_merge" (columns merged)) then Err (KeyError Msg_no_merge_column)
  else
    let vc := column merged "_merge" in
    Ok (mk_counts (count_value "left_only" vc) (count_value "right_only" vc)
                  (count_value "both" vc) (List.length (rows merged))).

(** The [Dict[str, int]] that [audit_counts] returns, as its items in
    insertion order. *)
Definition counts_items (c : counts) : list (string * Z) :=
  [("left_only", Z.of_nat (left_only c)); ("right_only", Z.of_nat (right_only c));
   ("both", Z.of_nat (both c)); ("total_rows", Z.of_nat (total_rows c))].

(* ------------------------------------------------------------------ *)
(** ** read_csv and quick_merge_with_audit *)

(** [df.rename(columns=rename_map)] *)
Fixpoint dict_get (m : list (string * string)) (k : string) : option string :=
  match m with
  | [] => None
  | (k', v) :: m' => if String.eqb k k' then Some v else dict_get m' k
  end.

Definition rename (df : table) (m : list (string * string)) : table :=
  mk_table (map (fun c => match dict_get m c with Some c' => c' | None => c end)
                (columns df)) (rows df).

Section Loading.

(** The pandas calls the loader delegates to.  [pd_read_csv path]
    answers [None] when the file cannot be read or parsed.
    [series.astype(dtype)] first resolves [dtype] ([dtype_valid]; an
    unknown name raises [TypeError: data type not understood]) and then
    converts cell by cell ([cast_cell]), raising on the first cell that
    does not convert.  [pd.to_datetime(series, errors="coerce")] infers
    one date format from the series as a whole (from its first non-null
    value) and turns each cell into a timestamp, or into a missing value
    when the cell does not parse that way: [coerce_date vals v] is what
    becomes of the cell [v] of the series [vals]; the series as a whole
    may also be refused ([to_datetime_error]). *)
Variable pd_read_csv : string -> option table.
Variable dtype_valid : string -> bool.
Variable cast_cell : string -> cell -> result cell.
Variable coerce_date : list cell -> cell -> cell.
Variable to_datetime_error : list cell -> option exn.

Fixpoint cast_cells (dtype : string) (vals : list cell) : result (list cell) :=
  match vals with
  | [] => Ok []
  | v :: vals' =>
      match cast_cell dtype v with
      | Err e => Err e
      | Ok v' =>
          match cast_cells dtype vals' with
          | Err e => Err e
          | Ok vs => Ok (v' :: vs)
          end
      end
  end.

Definition astype (vals : list cell) (dtype : string) : result (list cell) :=
  if dtype_valid dtype then cast_cells dtype vals
  else Err (TypeError (Msg_dtype_not_understood dtype)).

Definition to_datetime (vals : list cell) : result (list cell) :=
  match to_datetime_error vals with
  | Some e => Err e
  | None => Ok (map (coerce_date vals) vals)
  end.

(** [for col, dtype in dtype_map.items(): if col in df.columns: try ...
    except Exception as e: print(...)] *)
Fixpoint cast_columns (df : table) (dtype_map : list (string * string)) : M table :=
  match dtype_map with
  | [] => ret df
  | (col, dtype) :: rest =>
      df' <- (if mem col (columns df) then
                match astype (column df col) dtype with
                | Ok v => ret (set_col df col v)
                | Err e => _ <- tell (Warn_cast col dtype e) ;; ret df
                end
              else ret df) ;;
      cast_columns df' rest
  end.

Fixpoint parse_date_columns (df : table) (parse_dates : list string) : M table :=
  match parse_dates with
  | [] => ret df
  | col :: rest =>
      df' <- (if mem col (columns df) then
                match to_datetime (column df col) with
                | Ok v => ret (set_col df col v)
                | Err e => _ <- tell (Warn_dates col e) ;; ret df
                end
              else ret df) ;;
      parse_date_columns df' rest
  end.

(** [None] and an empty dict or list are both falsy and skip their step;
    both are written [[]] here. *)
Definition read_csv (path : string) (dtype_map : list (string * string))
    (parse_dates : list string) (rename_map : list (string * string)) : M table :=
  df <- (match pd_read_csv path with
         | Some t => ret t
         | None => raise (OSError (Msg_io path))
         end) ;;
  let df := if is_nil rename_map then df else rename df rename_map in
  let df := normalize_columns df true true true in
  df <- cast_columns df dtype_map ;;
  parse_date_columns df parse_dates.

Definition quick_merge_with_audit (left_path right_path : string)
    (on : list string) (how : join_how)
    (left_dtypes right_dtypes : list (string * string))
    (left_parse_dates right_parse_dates : list string)
    (dedupe_left_keys dedupe_right_keys : list string)
    (validate : option string) (suffixes : string * string)
    (conflicts : list (string * string)) : M (table * counts) :=
  left <- read_csv left_path left_dtypes left_parse_dates [] ;;
  right <- read_csv right_path right_dtypes right_parse_dates [] ;;
  left <- (if is_nil dedupe_left_keys then ret left
           else drop_dupes_on left dedupe_left_keys "last") ;;
  right <- (if is_nil dedupe_right_keys then ret right
            else drop_dupes_on right dedupe_right_keys "last") ;;
  merged <- lift (merge_frames left right on how validate suffixes true) ;;
  merged <- (if is_nil conflicts then ret merged
             else match resolve_conflicts merged conflicts suffixes with
                  | (m, None) => ret m
                  | (_, Some e) => raise e
                  end) ;;
  c <- lift (audit_counts merged) ;;
  ret (merged, c).

End Loading.

(* ------------------------------------------------------------------ *)
(** ** save_report *)

(** [str(n)] / [f"{n}"] for a Python [int]. *)
Definition py_str_int (n : Z) : string := NilZero.string_of_int (Z.to_int n).

Definition newline : string := String (ascii_of_nat 10) EmptyString.

(** [counts.get(key, 0)] on a [Dict[str, int]] *)
Fixpoint count_get (counts : list (string * Z)) (key : string) : Z :=
  match counts with
  | [] => 0%Z
  | (k, v) :: rest => if String.eqb key k then v else count_get rest key
  end.

(** [df.empty]: no row or no column. *)
Definition df_empty (t : table) : bool := is_nil (columns t) || is_nil (rows t).

(** [df.head(n)], i.e. [df.iloc[:n]]: for a negative [n], all rows but
    the last [-n]. *)
Definition head (t : table) (n : Z) : table :=
  mk_table (columns t)
           (firstn (if (0 <=? n)%Z then Z.to_nat n
                    else List.length (rows t) - Z.to_nat (- n)) (rows t)).

Section Reporting.

(** [head.to_string(index=False)]: pandas' text rendering of a table. *)
Variable to_string : table -> string.

Definition df_to_text (sample_size : Z) (df : option table) (title : string)
    : list string :=
  match df with
  | None => [(title ++ ": (none)")%string]
  | Some d =>
      if df_empty d then [(title ++ ": (none)")%string]
      else [(title ++ " (showing up to " ++ py_str_int sample_size ++ "):")%string;
            to_string (head d sample_size)]
  end.

Definition report_lines (counts : list (string * Z))
    (sample_left_only sample_right_only : option table) (sample_size : Z)
    : list string :=
  ["=== Merge Audit Report ===";
   ("Total rows in merged output: " ++ py_str_int (count_get counts "total_rows"))%string;
   ("Matched on both sides      : " ++ py_str_int (count_get counts "both"))%string;
   ("Left-only rows             : " ++ py_str_int (count_get counts "left_only"))%string;
   ("Right-only rows            : " ++ py_str_int (count_get counts "right_only"))%string;
   ""]
  ++ df_to_text sample_size sample_left_only "Examples of LEFT-ONLY rows"
  ++ [""]
  ++ df_to_text sample_size sample_right_only "Examples of RIGHT-ONLY rows".

(** The file written: its path and its whole text ([open(path, "w")]
    truncates it first). *)
Definition save_report (path : string) (counts : list (string * Z))
    (sample_left_only sample_right_only : option table) (sample_size : Z)
    : string * string :=
  (path, String.concat newline
           (report_lines counts sample_left_only sample_right_only sample_size)).

End Reporting.

(* ------------------------------------------------------------------ *)
(** ** merge_cli.py *)



(** [merged[merged[c] == v]]: the rows whose cell under [c] equals [v]
    (a missing cell compares unequal). *)
Definition select_eq (t : table) (c v : string) : table :=
  mk_table (columns t) (filter (fun r => cell_eqb (get (columns t) r c) (Some v)) (rows t)).

(* ================================================================== *)
(** * Properties *)

(* ------------------------------------------------------------------ *)
(** ** normalize_columns *)

Module Normalize.

(** The character-wise part of [_clean]: lowercase, then spaces to
    underscores, each when its switch is on. *)
Definition char_step (lower spaces : bool) (c : ascii) : ascii :=
  let c := if lower then py_lower_char c else c in
  if spaces then space_to_underscore c else c.

Lemma char_step_idem lower spaces c :
  char_step lower spaces (char_step lower spaces c) = char_step lower spaces c.
Proof.
  destruct c as [[] [] [] [] [] [] [] []], lower, spaces; reflexivity.
Qed.

Lemma char_step_nonspace lower spaces c :
  py_isspace c = false -> py_isspace (char_step lower spaces c) = false.
Proof.
  destruct c as [[] [] [] [] [] [] [] []], lower, spaces;
    simpl; try reflexivity; discriminate.
Qed.

Lemma str_map_map f g s : str_map f (str_map g s) = str_map (fun c => f (g c)) s.
Proof. induction s; simpl; congruence. Qed.

Lemma str_map_ext f g s : (forall c, f c = g c) -> str_map f s = str_map g s.
Proof. intros H; induction s; simpl; congruence. Qed.

Lemma str_map_id s : str_map (fun c => c) s = s.
Proof. induction s; simpl; congruence. Qed.

Lemma str_map_empty f s : str_map f s = EmptyString -> s = EmptyString.
Proof. destruct s; simpl; congruence. Qed.

Lemma clean_as_map lower strip spaces s :
  clean lower strip spaces s
  = str_map (char_step lower spaces) (if strip then py_strip s else s).
Proof.
  unfold clean, py_lower, py_replace_spaces, char_step.
  set (t := if strip then py_strip s else s); clearbody t.
  destruct lower, spaces; rewrite ?str_map_map;
    try (symmetry; apply str_map_id); reflexivity.
Qed.

(** No leading whitespace. *)
Definition no_lead (s : string) : Prop :=
  match s with
  | EmptyString => True
  | String c _ => py_isspace c = false
  end.

Lemma lstrip_no_lead s : no_lead (py_lstrip s).
Proof.
  induction s as [|c s IH]; simpl; [exact I|].
  destruct (py_isspace c) eqn:E; [exact IH | exact E].
Qed.

Lemma lstrip_no_lead_id s : no_lead s -> py_lstrip s = s.
Proof. destruct s as [|c s]; simpl; [reflexivity|]. intros ->. reflexivity. Qed.

Lemma rstrip_idem s : py_rstrip (py_rstrip s) = py_rstrip s.
Proof.
  induction s as [|c s IH]; [reflexivity|].
  cbn [py_rstrip].
  destruct (py_rstrip s) as [|c' t] eqn:E.
  - destruct (py_isspace c) eqn:Ec; [reflexivity|]. cbn. rewrite Ec. reflexivity.
  - try rewrite E in IH.
    change (py_rstrip (String c (String c' t)))
      with (match py_rstrip (String c' t) with
            | EmptyString => if py_isspace c then EmptyString else String c EmptyString
            | _ => String c (py_rstrip (String c' t))
            end).
    rewrite IH. reflexivity.
Qed.

Lemma rstrip_no_lead s : no_lead s -> no_lead (py_rstrip s).
Proof.
  destruct s as [|c s]; simpl; [trivial|]. intros Hc.
  destruct (py_rstrip s); [rewrite Hc|]; exact Hc.
Qed.

Lemma map_no_lead h s :
  (forall c, py_isspace c = false -> py_isspace (h c) = false) ->
  no_lead s -> no_lead (str_map h s).
Proof. destruct s; simpl; auto. Qed.

Lemma rstrip_cons_nonempty c s :
  py_rstrip s <> EmptyString -> py_rstrip (String c s) = String c (py_rstrip s).
Proof. intros H. cbn [py_rstrip]. destruct (py_rstrip s); congruence. Qed.

Lemma rstrip_map_fixed h t :
  (forall c, py_isspace c = false -> py_isspace (h c) = false) ->
  py_rstrip t = t -> py_rstrip (str_map h t) = str_map h t.
Proof.
  intros Hh. induction t as [|c t IH]; [reflexivity|].
  intros H. cbn [py_rstrip] in H.
  destruct (py_rstrip t) as [|c' u] eqn:E.
  - destruct (py_isspace c) eqn:Ec; [discriminate|].
    injection H as <-. cbn. rewrite (Hh c Ec). reflexivity.
  - injection H as Hu. subst t. specialize (IH eq_refl).
    cbn [str_map]. cbn [str_map] in IH.
    rewrite rstrip_cons_nonempty, IH; [reflexivity|].
    rewrite IH. discriminate.
Qed.

Lemma strip_map_stripped h s :
  (forall c, py_isspace c = false -> py_isspace (h c) = false) ->
  py_strip (str_map h (py_strip s)) = str_map h (py_strip s).
Proof.
  intros Hh. unfold py_strip at 1.
  rewrite lstrip_no_lead_id.
  - apply rstrip_map_fixed; [exact Hh|]. unfold py_strip. apply rstrip_idem.
  - apply map_no_lead; [exact Hh|]. apply rstrip_no_lead, lstrip_no_lead.
Qed.

Lemma clean_idem lower strip spaces s :
  clean lower strip spaces (clean lower strip spaces s) = clean lower strip spaces s.
Proof.
  rewrite !clean_as_map. destruct strip.
  - rewrite strip_map_stripped by apply char_step_nonspace.
    rewrite str_map_map. apply str_map_ext. intros c. apply char_step_idem.
  - rewrite str_map_map. apply str_map_ext. intros c. apply char_step_idem.
Qed.

End Normalize.

(** C9: for every table and every setting of the three switches,
    normalizing the column labels twice gives the same table as
    normalizing once, and normalization leaves the rows untouched. *)
Theorem normalize_columns_idempotent (df : table) (lower strip spaces : bool) :
  normalize_columns (normalize_columns df lower strip spaces) lower strip spaces
  = normalize_columns df lower strip spaces
  /\ rows (normalize_columns df lower strip spaces) = rows df.
Proof.
  split; [|reflexivity].
  unfold normalize_columns; simpl. f_equal.
  rewrite map_map. apply map_ext. intros c. apply Normalize.clean_idem.
Qed.

(* ------------------------------------------------------------------ *)
(** ** Equality tests and membership *)

Lemma cell_eqb_eq a b : cell_eqb a b = true <-> a = b.
Proof.
  destruct a as [x|], b as [y|]; simpl; split; intros H; try discriminate; auto.
  - apply String.eqb_eq in H. now subst.
  - injection H as ->. apply String.eqb_refl.
Qed.

Lemma key_eqb_eq a b : key_eqb a b = true <-> a = b.
Proof.
  revert b; induction a as [|x a IH]; intros [|y b]; simpl;
    split; intros H; try discriminate; auto.
  - apply andb_true_iff in H as [H1 H2].
    apply cell_eqb_eq in H1. apply IH in H2. now subst.
  - injection H as -> ->. apply andb_true_iff. split.
    + now apply cell_eqb_eq.
    + now apply IH.
Qed.

Lemma key_eqb_refl a : key_eqb a a = true.
Proof. now apply key_eqb_eq. Qed.

Lemma has_key_In k ks : has_key k ks = true <-> In k ks.
Proof.
  unfold has_key. rewrite existsb_exists. split.
  - intros [k' [Hin Heq]]. apply key_eqb_eq in Heq. now subst.
  - intros Hin. exists k. split; [exact Hin|apply key_eqb_refl].
Qed.

Lemma has_key_false k ks : has_key k ks = false <-> ~ In k ks.
Proof.
  rewrite <- has_key_In. destruct (has_key k ks); split; congruence.
Qed.

Lemma mem_In c cs : mem c cs = true <-> In c cs.
Proof.
  unfold mem. rewrite existsb_exists. split.
  - intros [c' [Hin Heq]]. apply String.eqb_eq in Heq. now subst.
  - intros Hin. exists c. split; [exact Hin|apply String.eqb_refl].
Qed.

Lemma mem_false c cs : mem c cs = false <-> ~ In c cs.
Proof. rewrite <- mem_In. destruct (mem c cs); split; congruence. Qed.

Lemma missing_nil (keys cs : list string) :
  (forall k, In k keys -> In k cs) ->
  filter (fun k => negb (mem k cs)) keys = [].
Proof.
  induction keys as [|k keys IH]; intros H; simpl; [reflexivity|].
  assert (Hk : mem k cs = true) by (apply mem_In, H; left; reflexivity).
  rewrite Hk. simpl. apply IH. intros k' Hk'. apply H. now right.
Qed.

(* ------------------------------------------------------------------ *)
(** ** drop_dupes_on *)

Module Dedup.

Section KeepLast.
Variable kf : list cell -> list cell.

Lemma keep_last_keys kv rs :
  In kv (map kf rs) <-> In kv (map kf (keep_last kf rs)).
Proof.
  induction rs as [|r rs IH]; simpl; [tauto|].
  destruct (has_key (kf r) (map kf rs)) eqn:E.
  - apply has_key_In in E. rewrite <- IH. split; [|tauto].
    intros [<-|H]; assumption.
  - simpl. rewrite IH. tauto.
Qed.

Lemma keep_last_nodup rs : NoDup (map kf (keep_last kf rs)).
Proof.
  induction rs as [|r rs IH]; simpl; [constructor|].
  destruct (has_key (kf r) (map kf rs)) eqn:E; [exact IH|].
  simpl. constructor; [|exact IH].
  apply has_key_false in E. rewrite <- keep_last_keys. exact E.
Qed.

Lemma keep_last_is_last r rs :
  In r (keep_last kf rs) ->
  exists pre post, rs = pre ++ r :: post /\ forall r', In r' post -> kf r' <> kf r.
Proof.
  induction rs as [|r0 rs IH]; simpl; [contradiction|].
  destruct (has_key (kf r0) (map kf rs)) eqn:E.
  - intros Hin. destruct (IH Hin) as [pre [post [-> Hpost]]].
    exists (r0 :: pre), post. split; [reflexivity|exact Hpost].
  - intros [<-|Hin].
    + exists [], rs. split; [reflexivity|].
      intros r' Hr' Heq. apply has_key_false in E. apply E.
      rewrite <- Heq. now apply in_map.
    + destruct (IH Hin) as [pre [post [-> Hpost]]].
      exists (r0 :: pre), post. split; [reflexivity|exact Hpost].
Qed.

Lemma keep_last_nodup_id rs : NoDup (map kf rs) -> keep_last kf rs = rs.
Proof.
  induction rs as [|r rs IH]; simpl; [reflexivity|].
  intros Hnd. inversion Hnd as [|? ? Hnotin Hnd']; subst.
  apply has_key_false in Hnotin. rewrite Hnotin. f_equal. now apply IH.
Qed.

Lemma keep_last_idem rs : keep_last kf (keep_last kf rs) = keep_last kf rs.
Proof. apply keep_last_nodup_id, keep_last_nodup. Qed.

End KeepLast.

End Dedup.

(** C7: on a table whose columns include every key, [drop_dupes_on] with
    [keep="last"] succeeds with a table of the same columns that has
    exactly one row per key tuple occurring in the input, each kept row is
    the last row of the input with its key tuple, and a second
    application with the same arguments returns the same table (and
    reports no removed rows). *)
Theorem drop_dupes_on_last_spec (df : table) (keys : list string) :
  (forall k, In k keys -> In k (columns df)) ->
  exists out log,
    drop_dupes_on df keys "last" = (log, Ok out)
    /\ columns out = columns df
    /\ NoDup (keys_of out keys)
    /\ (forall kv, In kv (keys_of df keys) <-> In kv (keys_of out keys))
    /\ (forall r, In r (rows out) ->
          exists pre post, rows df = pre ++ r :: post
            /\ forall r', In r' post -> key_of (columns df) keys r' <> key_of (columns df) keys r)
    /\ drop_dupes_on out keys "last" = ([], Ok out).
Proof.
  intros Hkeys.
  set (kf := key_of (columns df) keys).
  set (out := mk_table (columns df) (keep_last kf (rows df))).
  assert (Hrun : forall t, columns t = columns df ->
            drop_dupes_on t keys "last"
            = ((if Nat.eqb (List.length (keep_last kf (rows t))) (List.length (rows t))
                then [] else [Info_removed (List.length (rows t)
                                - List.length (keep_last kf (rows t))) keys]),
               Ok (mk_table (columns df) (keep_last kf (rows t))))).
  { intros t Ht. unfold drop_dupes_on. rewrite Ht, (missing_nil _ _ Hkeys).
    unfold drop_duplicates. rewrite Ht. simpl.
    destruct (Nat.eqb _ _); reflexivity. }
  exists out, (if Nat.eqb (List.length (keep_last kf (rows df))) (List.length (rows df))
          then [] else [Info_removed (List.length (rows df)
                          - List.length (keep_last kf (rows df))) keys]).
  split; [apply Hrun; reflexivity|].
  split; [reflexivity|].
  split; [apply Dedup.keep_last_nodup|].
  split; [intros kv; apply Dedup.keep_last_keys|].
  split; [intros r Hr; now apply Dedup.keep_last_is_last|].
  rewrite (Hrun out eq_refl). simpl. rewrite Dedup.keep_last_idem, Nat.eqb_refl.
  reflexivity.
Qed.

(* ------------------------------------------------------------------ *)
(** ** merge_frames: missing join keys *)

(** C6: if some key of [on] is missing from either input, [merge_frames]
    raises [KeyError] before pandas is called, whatever the join type,
    validation token, suffixes or indicator flag; the message lists the
    keys missing on each side, among them the missing key. *)
Theorem merge_frames_missing_key (L R : table) (on : list string) (how : join_how)
    (validate : option string) (suffixes : string * string) (indicator : bool)
    (k : string) :
  In k on -> ~ In k (columns L) \/ ~ In k (columns R) ->
  merge_frames L R on how validate suffixes indicator
  = Err (KeyError (Msg_join_keys_missing
                     (filter (fun x => negb (mem x (columns L))) on)
                     (filter (fun x => negb (mem x (columns R))) on)))
  /\ (In k (filter (fun x => negb (mem x (columns L))) on)
      \/ In k (filter (fun x => negb (mem x (columns R))) on)).
Proof.
  intros Hk Hmiss.
  assert (Hin : In k (filter (fun x => negb (mem x (columns L))) on)
                \/ In k (filter (fun x => negb (mem x (columns R))) on)).
  { destruct Hmiss as [H|H]; [left|right]; apply filter_In; split; auto;
      apply negb_true_iff, mem_false; exact H. }
  split; [|exact Hin].
  unfold merge_frames.
  destruct Hin as [H|H];
    [destruct (filter (fun x => negb (mem x (columns L))) on) eqn:E
    |destruct (filter (fun x => negb (mem x (columns R))) on) eqn:E];
    try contradiction; simpl; [reflexivity|].
  rewrite orb_true_r. reflexivity.
Qed.

(* ------------------------------------------------------------------ *)
(** ** merge_frames: cardinality validation *)

Inductive cardinality := OneToOne | OneToMany | ManyToOne | ManyToMany.

(** The [validate=] spellings pandas accepts for each contract. *)
Definition card_tokens (c : cardinality) : list string :=
  match c with
  | OneToOne => ["one_to_one"; "1:1"]
  | OneToMany => ["one_to_many"; "1:m"]
  | ManyToOne => ["many_to_one"; "m:1"]
  | ManyToMany => ["many_to_many"; "m:m"]
  end.

(** The contract in the words of the spec: on each side declared "one",
    every key value appears at most once. *)
Definition spec_contract_holds (c : cardinality) (kl kr : list (list cell)) : Prop :=
  match c with
  | OneToOne => NoDup kl /\ NoDup kr
  | OneToMany => NoDup kl
  | ManyToOne => NoDup kr
  | ManyToMany => True
  end.

Lemma is_unique_NoDup ks : is_unique ks = true <-> NoDup ks.
Proof.
  induction ks as [|k ks IH]; simpl.
  - split; [constructor|reflexivity].
  - rewrite andb_true_iff, negb_true_iff, has_key_false, IH. split.
    + intros [H1 H2]. now constructor.
    + intros H. inversion H; subst. split; assumption.
Qed.

Lemma is_unique_false ks : is_unique ks = false <-> ~ NoDup ks.
Proof. rewrite <- is_unique_NoDup. destruct (is_unique ks); split; congruence. Qed.

Lemma check_validate_violation c tok kl kr :
  In tok (card_tokens c) -> ~ spec_contract_holds c kl kr ->
  exists m, check_validate (Some tok) kl kr = Some (MergeError m).
Proof.
  intros Htok Hviol.
  destruct c; simpl in Htok, Hviol;
    destruct Htok as [<-|[<-|[]]]; unfold check_validate; simpl;
    destruct (is_unique kl) eqn:El, (is_unique kr) eqn:Er; simpl;
    try (eexists; reflexivity);
    exfalso; apply Hviol;
    repeat match goal with
    | H : is_unique _ = true |- _ => apply is_unique_NoDup in H
    end; auto.
Qed.

(** C5: when all keys are present and a cardinality token is given whose
    contract the key tuples of the inputs break, [merge_frames] raises a
    [MergeError] (a validation error) and returns no table. *)
Theorem merge_frames_validate_violation (L R : table) (on : list string)
    (how : join_how) (suffixes : string * string) (indicator : bool)
    (c : cardinality) (tok : string) :
  (forall k, In k on -> In k (columns L) /\ In k (columns R)) ->
  In tok (card_tokens c) ->
  ~ spec_contract_holds c (keys_of L on) (keys_of R on) ->
  exists m, merge_frames L R on how (Some tok) suffixes indicator = Err (MergeError m).
Proof.
  intros Hon Htok Hviol.
  unfold merge_frames.
  rewrite (missing_nil on (columns L)) by (intros k Hk; apply Hon, Hk).
  rewrite (missing_nil on (columns R)) by (intros k Hk; apply Hon, Hk).
  simpl. unfold pd_merge.
  destruct (check_validate_violation c tok _ _ Htok Hviol) as [m Hm].
  rewrite Hm. exists m. reflexivity.
Qed.

(* ------------------------------------------------------------------ *)
(** ** Column assignment *)

(** Every row has one cell per column label (a DataFrame is
    rectangular). *)
Definition wf (t : table) : Prop :=
  forall r, In r (rows t) -> List.length r = List.length (columns t).

Module Cols.

Lemma index_of_lt c cs i : index_of c cs = Some i -> i < List.length cs.
Proof.
  revert i; induction cs as [|c' cs IH]; simpl; intros i H; [discriminate|].
  destruct (String.eqb c c'); [injection H as <-; lia|].
  destruct (index_of c cs) eqn:E; simpl in H; [|discriminate].
  injection H as <-. specialize (IH n eq_refl). lia.
Qed.

Lemma index_of_In c cs : In c cs <-> exists i, index_of c cs = Some i.
Proof.
  induction cs as [|c' cs IH]; simpl.
  - split; [contradiction|intros [i H]; discriminate].
  - destruct (String.eqb_spec c c') as [->|Hne].
    + split; [intros _; exists 0; reflexivity|intros _; left; reflexivity].
    + split.
      * intros [H|H]; [congruence|]. apply IH in H as [i Hi].
        rewrite Hi. exists (S i). reflexivity.
      * intros [i Hi]. right. apply IH.
        destruct (index_of c cs) as [j|]; simpl in Hi; [exists j; reflexivity|discriminate].
Qed.

Lemma index_of_None c cs : index_of c cs = None <-> ~ In c cs.
Proof.
  rewrite index_of_In. destruct (index_of c cs) as [i|]; split.
  - discriminate.
  - intros H. exfalso. apply H. exists i. reflexivity.
  - intros _ [i H]. discriminate.
  - reflexivity.
Qed.

Lemma index_of_app_Some c cs ys i :
  index_of c cs = Some i -> index_of c (cs ++ ys) = Some i.
Proof.
  revert i; induction cs as [|c' cs IH]; simpl; intros i H; [discriminate|].
  destruct (String.eqb c c'); [exact H|].
  destruct (index_of c cs) eqn:E; simpl in H; [|discriminate].
  rewrite (IH n eq_refl). exact H.
Qed.

Lemma index_of_app_None c cs ys :
  index_of c cs = None -> index_of c (cs ++ ys) = option_map (fun j => List.length cs + j) (index_of c ys).
Proof.
  induction cs as [|c' cs IH]; simpl; intros H.
  - destruct (index_of c ys); reflexivity.
  - destruct (String.eqb c c'); [discriminate|].
    destruct (index_of c cs) eqn:E; simpl in H; [discriminate|].
    rewrite (IH eq_refl). destruct (index_of c ys); reflexivity.
Qed.

Lemma index_of_self c : index_of c [c] = Some 0.
Proof. simpl. rewrite String.eqb_refl. reflexivity. Qed.

Lemma index_of_inj c c' cs i :
  index_of c cs = Some i -> index_of c' cs = Some i -> c = c'.
Proof.
  revert i; induction cs as [|x cs IH]; simpl; intros i H H'; [discriminate|].
  destruct (String.eqb_spec c x) as [Hc|Hc], (String.eqb_spec c' x) as [Hc'|Hc'].
  - congruence.
  - injection H as <-. destruct (index_of c' cs); discriminate.
  - injection H' as <-. destruct (index_of c cs); discriminate.
  - destruct (index_of c cs) as [j|] eqn:E, (index_of c' cs) as [j'|] eqn:E';
      simpl in H, H'; try discriminate.
    injection H as <-. injection H' as Hj. subst j'.
    eapply IH; eauto.
Qed.

Lemma length_replace_nth {A} i (x : A) l : List.length (replace_nth i x l) = List.length l.
Proof. revert i; induction l; intros [|i]; simpl; auto. Qed.

Lemma nth_replace_same {A} i (x d : A) l :
  i < List.length l -> nth i (replace_nth i x l) d = x.
Proof.
  revert i; induction l; intros [|i]; simpl; intros H; try lia; auto.
  apply IHl. lia.
Qed.

Lemma nth_replace_other {A} i j (x d : A) l :
  i <> j -> nth j (replace_nth i x l) d = nth j l d.
Proof.
  revert i j; induction l; intros [|i] [|j]; simpl; intros H; auto; try lia.
Qed.

Lemma map_snd_combine {A B} (xs : list A) (ys : list B) :
  List.length xs = List.length ys -> map snd (combine xs ys) = ys.
Proof.
  revert ys; induction xs; intros [|y ys]; simpl; intros H; try discriminate; auto.
  f_equal. apply IHxs. lia.
Qed.

Lemma map_combine_fst {A B C} (g : A -> C) (xs : list A) (ys : list B) :
  List.length xs = List.length ys ->
  map (fun p => g (fst p)) (combine xs ys) = map g xs.
Proof.
  revert ys; induction xs; intros [|y ys]; simpl; intros H; try discriminate; auto.
  f_equal. apply IHxs. lia.
Qed.

Lemma length_combine_eq {A B} (xs : list A) (ys : list B) :
  List.length xs = List.length ys -> List.length (combine xs ys) = List.length xs.
Proof. intros H. rewrite length_combine. lia. Qed.

Lemma set_col_wf t c vals : wf t -> wf (set_col t c vals).
Proof.
  unfold wf, set_col. intros H.
  destruct (index_of c (columns t)); simpl; intros r Hr;
    apply in_map_iff in Hr as [[r0 v] [<- Hin]]; simpl;
    apply in_combine_l in Hin; apply H in Hin.
  - rewrite length_replace_nth. exact Hin.
  - rewrite !length_app. simpl. lia.
Qed.

Lemma set_col_rows_length t c vals :
  List.length vals = List.length (rows t) ->
  List.length (rows (set_col t c vals)) = List.length (rows t).
Proof.
  intros H. unfold set_col.
  destruct (index_of c (columns t)); simpl; rewrite length_map, length_combine; lia.
Qed.

Lemma set_col_In t c vals : In c (columns (set_col t c vals)).
Proof.
  unfold set_col. destruct (index_of c (columns t)) eqn:E; simpl.
  - apply index_of_In. eauto.
  - apply in_or_app. right. left. reflexivity.
Qed.

Lemma set_col_mono t c vals c' : In c' (columns t) -> In c' (columns (set_col t c vals)).
Proof.
  unfold set_col. destruct (index_of c (columns t)); simpl; auto.
  intros H. apply in_or_app. left. exact H.
Qed.

(** Reading back the column just written. *)
Lemma column_set_col_same t c vals :
  wf t -> List.length vals = List.length (rows t) ->
  column (set_col t c vals) c = vals.
Proof.
  intros Hwf Hlen. unfold column, set_col.
  destruct (index_of c (columns t)) as [i|] eqn:E; simpl;
    rewrite map_map; rewrite <- (map_snd_combine (rows t) vals (eq_sym Hlen)) at 2;
    apply map_ext_in; intros [r v] Hin; apply in_combine_l in Hin;
    apply Hwf in Hin; unfold get; simpl.
  - rewrite E. apply nth_replace_same. apply index_of_lt in E. lia.
  - rewrite (index_of_app_None _ _ _ E), index_of_self. simpl.
    rewrite Nat.add_0_r, app_nth2 by lia.
    replace (List.length (columns t) - List.length r) with 0 by lia. reflexivity.
Qed.

(** Any other column is left as it was. *)
Lemma column_set_col_other t c vals c' :
  wf t -> List.length vals = List.length (rows t) -> c' <> c ->
  column (set_col t c vals) c' = column t c'.
Proof.
  intros Hwf Hlen Hne. unfold column, set_col.
  destruct (index_of c (columns t)) as [i|] eqn:E; simpl;
    rewrite map_map;
    rewrite <- (map_combine_fst (fun r => get (columns t) r c') (rows t) vals) by lia;
    apply map_ext_in; intros [r v] Hin; apply in_combine_l in Hin;
    apply Hwf in Hin; unfold get; simpl.
  - destruct (index_of c' (columns t)) as [j|] eqn:E'; [|reflexivity].
    apply nth_replace_other. intros ->. apply Hne. eapply index_of_inj; eauto.
  - destruct (index_of c' (columns t)) as [j|] eqn:E'.
    + rewrite (index_of_app_Some _ _ _ _ E').
      apply index_of_lt in E'. rewrite app_nth1 by lia. reflexivity.
    + rewrite (index_of_app_None _ _ _ E'). simpl.
      destruct (String.eqb_spec c' c); [contradiction|reflexivity].
Qed.

End Cols.

(* ------------------------------------------------------------------ *)
(** ** Shape of a successful merge *)

Module MergeShape.

Definition labels (L R : table) (on : list string) (suffixes : string * string)
    : list string :=
  map (relabel (overlap L R on) (fst suffixes)) (columns L)
  ++ map (relabel (overlap L R on) (snd suffixes)) (right_nonkey R on).

Definition indicator_values (jr : list (list cell * tag)) : list cell :=
  map (fun p => Some (tag_str (snd p))) jr.

Definition joined (L R : table) (on : list string) (suffixes : string * string)
    (how : join_how) : table :=
  mk_table (labels L R on suffixes) (map fst (join_rows how L R on)).

Lemma merge_frames_Ok L R on how validate suffixes indicator M :
  merge_frames L R on how validate suffixes indicator = Ok M ->
  (forall k, In k on -> In k (columns L) /\ In k (columns R))
  /\ check_validate validate (keys_of L on) (keys_of R on) = None
  /\ (indicator = true -> indicator_check (columns L ++ columns R) = None)
  /\ new_dups (columns L) (map (relabel (overlap L R on) (fst suffixes)) (columns L)) = []
  /\ M = (if indicator
          then set_col (joined L R on suffixes how) "_merge"
                 (indicator_values (join_rows how L R on))
          else joined L R on suffixes how).
Proof.
  unfold merge_frames.
  destruct (filter (fun k => negb (mem k (columns L))) on) as [|x xl] eqn:EL;
    [|simpl; discriminate].
  destruct (filter (fun k => negb (mem k (columns R))) on) as [|x xr] eqn:ER;
    [|simpl; discriminate].
  simpl. intros H.
  assert (Hon : forall k, In k on -> In k (columns L) /\ In k (columns R)).
  { intros k Hk. split.
    - destruct (mem k (columns L)) eqn:Ek; [now apply mem_In|].
      assert (Hin : In k (filter (fun k => negb (mem k (columns L))) on))
        by (apply filter_In; rewrite Ek; auto).
      rewrite EL in Hin. contradiction.
    - destruct (mem k (columns R)) eqn:Ek; [now apply mem_In|].
      assert (Hin : In k (filter (fun k => negb (mem k (columns R))) on))
        by (apply filter_In; rewrite Ek; auto).
      rewrite ER in Hin. contradiction. }
  split; [exact Hon|].
  unfold pd_merge in H.
  destruct (check_validate validate (keys_of L on) (keys_of R on)); [discriminate|].
  split; [reflexivity|].
  destruct (if indicator then indicator_check (columns L ++ columns R) else None)
    eqn:Ei; [discriminate|].
  split; [intros ->; exact Ei|].
  destruct suffixes as [ls rs].
  destruct (negb (is_nil (overlap L R on)) && String.eqb ls "" && String.eqb rs "");
    [discriminate|].
  destruct (new_dups (columns L) (map (relabel (overlap L R on) ls) (columns L)))
    as [|d ds] eqn:Ed; [|simpl in H; discriminate].
  split; [exact Ed|].
  simpl in H.
  destruct (is_nil (new_dups (right_nonkey R on)
                     (map (relabel (overlap L R on) rs) (right_nonkey R on))));
    simpl in H; [|discriminate].
  injection H as <-. reflexivity.
Qed.

Lemma length_filter_combine {A B} (f : A -> bool) (xs : list A) (ys : list B) :
  List.length xs = List.length ys ->
  List.length (filter (fun p => f (fst p)) (combine xs ys)) = List.length (filter f xs).
Proof.
  revert ys; induction xs as [|x xs IH]; intros [|y ys]; simpl; intros H;
    try discriminate; auto.
  destruct (f x); simpl; rewrite IH by lia; reflexivity.
Qed.

Lemma length_fit n r : List.length (fit n r) = n.
Proof.
  unfold fit. rewrite length_firstn, length_app, repeat_length. lia.
Qed.

Lemma length_right_part R on r :
  List.length (right_part R on r) = List.length (right_nonkey R on).
Proof.
  unfold right_part, right_nonkey. rewrite length_map.
  apply (length_filter_combine (fun c => negb (mem c on))).
  rewrite length_fit. reflexivity.
Qed.

Lemma join_rows_length how L R on p :
  In p (join_rows how L R on) ->
  List.length (fst p) = List.length (columns L) + List.length (right_nonkey R on).
Proof.
  assert (Hb : forall l r, List.length (fst (both_row L R on l r))
                           = List.length (columns L) + List.length (right_nonkey R on)).
  { intros l r. simpl. rewrite length_app, length_right_part. unfold left_part.
    rewrite length_fit. reflexivity. }
  assert (Hl : forall l, List.length (fst (left_only_row L R on l))
                         = List.length (columns L) + List.length (right_nonkey R on)).
  { intros l. simpl. rewrite length_app, repeat_length. unfold left_part.
    rewrite length_fit. reflexivity. }
  assert (Hr : forall r, List.length (fst (right_only_row L R on r))
                         = List.length (columns L) + List.length (right_nonkey R on)).
  { intros r. simpl. rewrite length_app, length_right_part.
    unfold right_only_left_part. rewrite length_map. reflexivity. }
  assert (HL : forall p, In p (left_rows L R on) ->
             List.length (fst p) = List.length (columns L) + List.length (right_nonkey R on)).
  { intros q Hq. unfold left_rows in Hq. apply in_flat_map in Hq as [l [_ Hq]].
    destruct (matches_right L R on l).
    - destruct Hq as [<-|[]]. apply Hl.
    - apply in_map_iff in Hq as [r [<- _]]. apply Hb. }
  destruct how; simpl; intros Hp.
  - apply in_flat_map in Hp as [l [_ Hp]]. apply in_map_iff in Hp as [r [<- _]].
    apply Hb.
  - apply HL, Hp.
  - apply in_flat_map in Hp as [r [_ Hp]].
    destruct (matches_left L R on r) as [|l0 ms]; simpl in Hp.
    + destruct Hp as [<-|[]]. apply Hr.
    + destruct Hp as [<-|Hp]; [apply Hb|].
      apply in_map_iff in Hp as [l [<- _]]. apply Hb.
  - apply in_app_or in Hp as [Hp|Hp]; [apply HL, Hp|].
    apply in_map_iff in Hp as [r [<- _]]. apply Hr.
Qed.

Lemma joined_wf L R on suffixes how : wf (joined L R on suffixes how).
Proof.
  intros r Hr. simpl in Hr. apply in_map_iff in Hr as [p [<- Hp]].
  rewrite (join_rows_length _ _ _ _ _ Hp). unfold joined, labels. simpl.
  rewrite length_app, !length_map. reflexivity.
Qed.

(** Every row of a merge run with [indicator=True] has one of the three
    provenance values in its [_merge] column. *)
Lemma merge_indicator_column L R on how validate suffixes M :
  merge_frames L R on how validate suffixes true = Ok M ->
  wf M /\ In "_merge" (columns M)
  /\ column M "_merge" = indicator_values (join_rows how L R on).
Proof.
  intros H. apply merge_frames_Ok in H as (_ & _ & _ & _ & ->).
  split; [apply Cols.set_col_wf, joined_wf|].
  split; [apply Cols.set_col_In|].
  apply Cols.column_set_col_same; [apply joined_wf|].
  unfold indicator_values, joined. simpl. rewrite !length_map. reflexivity.
Qed.

End MergeShape.

(* ------------------------------------------------------------------ *)
(** ** audit_counts *)

Lemma count_partition (xs : list cell) :
  (forall x, In x xs -> exists t, x = Some (tag_str t)) ->
  count_value "left_only" xs + count_value "right_only" xs + count_value "both" xs
  = List.length xs.
Proof.
  induction xs as [|x xs IH]; intros H; [reflexivity|].
  destruct (H x (or_introl eq_refl)) as [[] ->];
    unfold count_value in *; simpl;
    rewrite <- IH by (intros y Hy; apply H; now right); lia.
Qed.

(** C2: for every table returned by [merge_frames] with the provenance
    indicator on, [audit_counts] succeeds and its counts satisfy
    [left_only + right_only + both = total_rows]. *)
Theorem audit_counts_merge_partition (L R : table) (on : list string)
    (how : join_how) (validate : option string) (suffixes : string * string)
    (M : table) :
  merge_frames L R on how validate suffixes true = Ok M ->
  exists c, audit_counts M = Ok c
            /\ left_only c + right_only c + both c = total_rows c.
Proof.
  intros H. destruct (MergeShape.merge_indicator_column _ _ _ _ _ _ _ H)
    as (Hwf & Hin & Hcol).
  unfold audit_counts. apply mem_In in Hin. rewrite Hin. simpl.
  eexists. split; [reflexivity|]. simpl.
  replace (List.length (rows M)) with (List.length (column M "_merge"))
    by (unfold column; apply length_map).
  apply count_partition. rewrite Hcol. intros x Hx.
  unfold MergeShape.indicator_values in Hx.
  apply in_map_iff in Hx as [p [<- _]]. eauto.
Qed.

(* ------------------------------------------------------------------ *)
(** ** quick_merge_with_audit: the provenance column reaches the audit *)

(** Whether a run ended in [audit_counts]' missing-provenance [KeyError]. *)
Definition missing_provenance_raised {A} (r : result A) : bool :=
  match r with
  | Err (KeyError Msg_no_merge_column) => true
  | _ => false
  end.

Module Pipeline.

Lemma bind_snd_err {A B} (m : M A) (k : A -> M B) e :
  snd (bind m k) = Err e ->
  snd m = Err e \/ exists a, snd m = Ok a /\ snd (k a) = Err e.
Proof.
  destruct m as [l [a|e']]; simpl.
  - destruct (k a) as [l2 r] eqn:E; simpl. intros H. right. exists a.
    rewrite E. split; [reflexivity|exact H].
  - intros H. left. injection H as ->. reflexivity.
Qed.

Lemma bind_snd_ok {A B} (m : M A) (k : A -> M B) :
  (exists a, snd m = Ok a) -> (forall a, exists b, snd (k a) = Ok b) ->
  exists b, snd (bind m k) = Ok b.
Proof.
  intros [a Ha] Hk. destruct m as [l [a'|e]]; simpl in Ha; [|discriminate].
  injection Ha as ->. simpl. destruct (Hk a) as [b Hb].
  destruct (k a) as [l2 r]. simpl in *. eauto.
Qed.

Lemma cast_columns_ok dtype_valid cast_cell df dm :
  exists t, snd (cast_columns dtype_valid cast_cell df dm) = Ok t.
Proof.
  revert df; induction dm as [|[col dtype] dm IH]; intros df; simpl; [eauto|].
  apply bind_snd_ok; [|exact IH].
  destruct (mem col (columns df));
    [destruct (astype dtype_valid cast_cell (column df col) dtype)|];
    simpl; eauto.
Qed.

Lemma parse_date_columns_ok coerce_date to_datetime_error df pd :
  exists t, snd (parse_date_columns coerce_date to_datetime_error df pd) = Ok t.
Proof.
  revert df; induction pd as [|col pd IH]; intros df; simpl; [eauto|].
  apply bind_snd_ok; [|exact IH].
  destruct (mem col (columns df));
    [destruct (to_datetime coerce_date to_datetime_error (column df col))|];
    simpl; eauto.
Qed.

Lemma read_csv_err pd_read_csv dtype_valid cast_cell coerce_date to_datetime_error
    path dm pd rm e :
  snd (read_csv pd_read_csv dtype_valid cast_cell coerce_date to_datetime_error
         path dm pd rm) = Err e ->
  e = OSError (Msg_io path).
Proof.
  unfold read_csv. intros H.
  apply bind_snd_err in H as [H|[df [_ H]]].
  - destruct (pd_read_csv path); simpl in H; [discriminate|congruence].
  - apply bind_snd_err in H as [H|[df' [_ H]]].
    + destruct (cast_columns_ok dtype_valid cast_cell
                  (normalize_columns (if is_nil rm then df else rename df rm) true true true) dm)
        as [t Ht]. congruence.
    + destruct (parse_date_columns_ok coerce_date to_datetime_error df' pd) as [t Ht].
      congruence.
Qed.

Lemma drop_dupes_on_err df keys keep e :
  snd (drop_dupes_on df keys keep) = Err e ->
  missing_provenance_raised (Err (A := unit) e) = false.
Proof.
  unfold drop_dupes_on. destruct (filter _ keys) as [|x xs].
  - unfold drop_duplicates.
    destruct (String.eqb keep "first"); [|destruct (String.eqb keep "last")]; simpl;
      [destruct (Nat.eqb _ _)..|]; simpl; intros H; try discriminate;
      injection H as <-; reflexivity.
  - simpl. intros H. injection H as <-. reflexivity.
Qed.

Lemma check_validate_err v kl kr e :
  check_validate v kl kr = Some e -> missing_provenance_raised (Err (A := unit) e) = false.
Proof.
  unfold check_validate. destruct v as [tok|]; [|discriminate].
  repeat match goal with
  | |- context [if ?b then _ else _] => destruct b
  end; intros H; try discriminate; injection H as <-; reflexivity.
Qed.

Lemma indicator_check_err cs e :
  indicator_check cs = Some e -> missing_provenance_raised (Err (A := unit) e) = false.
Proof.
  unfold indicator_check.
  repeat match goal with
  | |- context [if ?b then _ else _] => destruct b
  end; intros H; try discriminate; injection H as <-; reflexivity.
Qed.

Lemma merge_frames_err L R on how v sfx ind e :
  merge_frames L R on how v sfx ind = Err e ->
  missing_provenance_raised (Err (A := unit) e) = false.
Proof.
  unfold merge_frames.
  destruct (negb (is_nil _) || negb (is_nil _));
    [intros H; injection H as <-; reflexivity|].
  unfold pd_merge.
  destruct (check_validate v _ _) eqn:Ev;
    [intros H; injection H as <-; eapply check_validate_err; eauto|].
  destruct (if ind then _ else None) eqn:Ei.
  { intros H; injection H as <-. destruct ind; [|discriminate].
    eapply indicator_check_err; eauto. }
  destruct sfx as [ls rs].
  destruct (_ && _ && _); [intros H; injection H as <-; reflexivity|].
  destruct (negb (is_nil _)); [intros H; injection H as <-; reflexivity|].
  discriminate.
Qed.

Lemma resolve_one_columns df base strategy sfx df' :
  resolve_one df base strategy sfx = Ok df' ->
  forall c, In c (columns df) -> In c (columns df').
Proof.
  unfold resolve_one. destruct sfx as [ls rs].
  destruct (negb _ || negb _); [intros H; injection H as <-; auto|].
  repeat match goal with
  | |- context [if ?b then _ else _] => destruct b
  end; intros H; try discriminate; injection H as <-;
    intros c Hc; apply Cols.set_col_mono; exact Hc.
Qed.

Lemma resolve_one_err df base strategy sfx e :
  resolve_one df base strategy sfx = Err e ->
  e = ValueError (Msg_unknown_strategy strategy base).
Proof.
  unfold resolve_one. destruct sfx as [ls rs].
  destruct (negb _ || negb _); [discriminate|].
  repeat match goal with
  | |- context [if ?b then _ else _] => destruct b
  end; intros H; try discriminate; injection H as <-; reflexivity.
Qed.

Lemma resolve_conflicts_columns df spec sfx :
  forall c, In c (columns df) -> In c (columns (fst (resolve_conflicts df spec sfx))).
Proof.
  revert df; induction spec as [|[b s] spec IH]; intros df c Hc; simpl; [exact Hc|].
  destruct (resolve_one df b s sfx) eqn:E; simpl; [|exact Hc].
  apply IH. eapply resolve_one_columns; eauto.
Qed.

Lemma resolve_conflicts_err df spec sfx e :
  snd (resolve_conflicts df spec sfx) = Some e ->
  exists b s, e = ValueError (Msg_unknown_strategy s b).
Proof.
  revert df; induction spec as [|[b s] spec IH]; intros df; simpl; [discriminate|].
  destruct (resolve_one df b s sfx) eqn:E; simpl; [apply IH|].
  intros H. injection H as <-. apply resolve_one_err in E. eauto.
Qed.

End Pipeline.

(** C10: whatever the loader, the casts, the inputs and the options,
    [quick_merge_with_audit] never ends in [audit_counts]' [KeyError] for
    a missing [_merge] column: the merge runs with [indicator=True] and
    [resolve_conflicts] only adds or overwrites columns, so the table
    handed to [audit_counts] always has [_merge]; every label of a table
    is still a label after [resolve_conflicts]. *)
Theorem quick_merge_audit_has_provenance
    (pd_read_csv : string -> option table)
    (dtype_valid : string -> bool) (cast_cell : string -> cell -> result cell)
    (coerce_date : list cell -> cell -> cell) (to_datetime_error : list cell -> option exn)
    (left_path right_path : string) (on : list string) (how : join_how)
    (left_dtypes right_dtypes : list (string * string))
    (left_parse_dates right_parse_dates : list string)
    (dedupe_left_keys dedupe_right_keys : list string)
    (validate : option string) (suffixes : string * string)
    (conflicts : list (string * string)) :
  missing_provenance_raised
    (snd (quick_merge_with_audit pd_read_csv dtype_valid cast_cell coerce_date
            to_datetime_error left_path right_path
            on how left_dtypes right_dtypes left_parse_dates right_parse_dates
            dedupe_left_keys dedupe_right_keys validate suffixes conflicts)) = false
  /\ (forall df : table,
        incl (columns df) (columns (fst (resolve_conflicts df conflicts suffixes)))).
Proof.
  split; [|intros df; exact (Pipeline.resolve_conflicts_columns df conflicts suffixes)].
  set (r := snd (quick_merge_with_audit _ _ _ _ _ _ _ _ _ _ _ _ _ _ _ _ _ _)).
  destruct r as [x|e] eqn:Er; [reflexivity|].
  unfold r, quick_merge_with_audit in Er. clear r.
  apply Pipeline.bind_snd_err in Er as [H|[lt [_ H]]].
  { apply Pipeline.read_csv_err in H. subst e. reflexivity. }
  apply Pipeline.bind_snd_err in H as [H|[rt [_ H]]].
  { apply Pipeline.read_csv_err in H. subst e. reflexivity. }
  apply Pipeline.bind_snd_err in H as [H|[lt' [_ H]]].
  { destruct (is_nil dedupe_left_keys); [discriminate|].
    eapply Pipeline.drop_dupes_on_err; eauto. }
  apply Pipeline.bind_snd_err in H as [H|[rt' [_ H]]].
  { destruct (is_nil dedupe_right_keys); [discriminate|].
    eapply Pipeline.drop_dupes_on_err; eauto. }
  apply Pipeline.bind_snd_err in H as [H|[m [Hm H]]].
  { simpl in H. eapply Pipeline.merge_frames_err; eauto. }
  simpl in Hm.
  destruct (MergeShape.merge_indicator_column _ _ _ _ _ _ _ Hm) as (_ & Hin & _).
  apply Pipeline.bind_snd_err in H as [H|[m' [Hm' H]]].
  { destruct (is_nil conflicts); [discriminate|].
    destruct (resolve_conflicts m conflicts suffixes) as [m0 [e0|]] eqn:Ec;
      simpl in H; [|discriminate].
    injection H as <-.
    destruct (Pipeline.resolve_conflicts_err m conflicts suffixes e0)
      as [b [s ->]]; [rewrite Ec; reflexivity|reflexivity]. }
  assert (Hin' : In "_merge" (columns m')).
  { destruct (is_nil conflicts).
    - simpl in Hm'. injection Hm' as <-. exact Hin.
    - destruct (resolve_conflicts m conflicts suffixes) as [m0 [e0|]] eqn:Ec;
        simpl in Hm'; [discriminate|].
      injection Hm' as <-.
      replace m0 with (fst (resolve_conflicts m conflicts suffixes)) by (rewrite Ec; reflexivity).
      apply Pipeline.resolve_conflicts_columns, Hin. }
  apply Pipeline.bind_snd_err in H as [H|[c [_ H]]]; [|discriminate].
  simpl in H. unfold audit_counts in H. apply mem_In in Hin'. rewrite Hin' in H.
  discriminate.
Qed.

(* ------------------------------------------------------------------ *)
(** ** read_csv: failed casts *)

Module Loader.

Lemma bind_ok_eq {A B} (m : M A) (k : A -> M B) a :
  snd m = Ok a -> bind m k = (fst m ++ fst (k a), snd (k a)).
Proof.
  destruct m as [l [a'|e]]; simpl; intros H; [|discriminate].
  injection H as ->. destruct (k a); reflexivity.
Qed.

Lemma cast_cells_length cast_cell d vals vs :
  cast_cells cast_cell d vals = Ok vs -> List.length vs = List.length vals.
Proof.
  revert vs; induction vals as [|v vals IH]; simpl; intros vs H.
  - injection H as <-. reflexivity.
  - destruct (cast_cell d v); [|discriminate].
    destruct (cast_cells cast_cell d vals) eqn:E; [|discriminate].
    injection H as <-. simpl. rewrite (IH _ eq_refl). reflexivity.
Qed.

Lemma astype_length dtype_valid cast_cell vals d vs :
  astype dtype_valid cast_cell vals d = Ok vs -> List.length vs = List.length vals.
Proof.
  unfold astype. destruct (dtype_valid d); [apply cast_cells_length|discriminate].
Qed.

(** One iteration for a column other than [col]. *)
Lemma cast_step_other dtype_valid cast_cell df c d col :
  wf df -> c <> col ->
  exists df1,
    snd (if mem c (columns df) then
           match astype dtype_valid cast_cell (column df c) d with
           | Ok v => ret (set_col df c v)
           | Err e => _ <- tell (Warn_cast c d e) ;; ret df
           end
         else ret df) = Ok df1
    /\ wf df1 /\ column df1 col = column df col
    /\ (In col (columns df) -> In col (columns df1)).
Proof.
  intros Hwf Hne.
  destruct (mem c (columns df)); [|eexists; split; [reflexivity|auto]].
  destruct (astype dtype_valid cast_cell (column df c) d) as [v|e] eqn:E;
    [|eexists; split; [reflexivity|auto]].
  eexists. split; [reflexivity|].
  assert (Hlen : List.length v = List.length (rows df)).
  { apply astype_length in E. rewrite E. unfold column. apply length_map. }
  split; [apply Cols.set_col_wf, Hwf|].
  split; [apply Cols.column_set_col_other; auto|].
  apply Cols.set_col_mono.
Qed.

Lemma cast_columns_other dtype_valid cast_cell dm df col :
  ~ In col (map fst dm) -> wf df ->
  exists t, snd (cast_columns dtype_valid cast_cell df dm) = Ok t
            /\ wf t /\ column t col = column df col
            /\ (In col (columns df) -> In col (columns t)).
Proof.
  revert df; induction dm as [|[c d] dm IH]; intros df Hnot Hwf; simpl.
  - eexists. split; [reflexivity|auto].
  - simpl in Hnot.
    destruct (cast_step_other dtype_valid cast_cell df c d col Hwf)
      as (df1 & H1 & Hwf1 & Hcol1 & Hin1); [intros ->; auto|].
    rewrite (bind_ok_eq _ _ _ H1). simpl.
    destruct (IH df1) as (t & Ht & Hwft & Hcolt & Hint); auto.
    exists t. repeat split; auto. congruence.
Qed.

End Loader.

(** C8: when a requested cast of a present column fails (whatever the
    exception), the cast loop of [read_csv] still returns a table, that
    column keeps the values it had, and a warning naming the column, the
    target dtype and the exception is written to stderr; a run of
    [read_csv] whose file was read never raises. *)
Theorem cast_failure_keeps_column (dtype_valid : string -> bool)
    (cast_cell : string -> cell -> result cell) (df : table)
    (dtype_map : list (string * string)) (col dtype : string) (e : exn) :
  wf df -> NoDup (map fst dtype_map) -> In (col, dtype) dtype_map ->
  In col (columns df) ->
  astype dtype_valid cast_cell (column df col) dtype = Err e ->
  (exists t, snd (cast_columns dtype_valid cast_cell df dtype_map) = Ok t
             /\ column t col = column df col)
  /\ In (Warn_cast col dtype e) (fst (cast_columns dtype_valid cast_cell df dtype_map))
  /\ (forall (pd_read_csv : string -> option table) (coerce_date : list cell -> cell -> cell)
        (to_datetime_error : list cell -> option exn)
        (path : string) (parse_dates : list string) (rename_map : list (string * string))
        (raw : table),
        pd_read_csv path = Some raw ->
        exists t, snd (read_csv pd_read_csv dtype_valid cast_cell coerce_date
                         to_datetime_error path dtype_map parse_dates rename_map) = Ok t).
Proof.
  intros Hwf Hnd Hin Hcol He.
  split; [|split].
  3:{ intros pd_read_csv coerce_date tde path pd rm raw Hraw.
      unfold read_csv. rewrite Hraw.
      rewrite (Loader.bind_ok_eq _ _ raw) by reflexivity. cbn [snd].
      apply Pipeline.bind_snd_ok.
      - apply Pipeline.cast_columns_ok.
      - intros a. apply Pipeline.parse_date_columns_ok. }
  all: revert df Hwf Hcol He; induction dtype_map as [|[c d] dm IH];
    intros df Hwf Hcol He; [contradiction|].
  all: simpl in Hnd; inversion Hnd as [|? ? Hnot Hnd']; subst.
  all: destruct (String.eqb_spec c col) as [->|Hne].
  1,3: assert (d = dtype) by
         (destruct Hin as [Heq|Hin]; [congruence|];
          exfalso; apply Hnot; apply (in_map fst) in Hin; exact Hin);
       subst d; simpl;
       assert (Hm : mem col (columns df) = true) by (apply mem_In; exact Hcol);
       rewrite Hm, He; simpl;
       destruct (Loader.cast_columns_other dtype_valid cast_cell dm df col Hnot Hwf)
         as (t & Ht & _ & Hct & _).
  - destruct (cast_columns dtype_valid cast_cell df dm) as [l r] eqn:E.
    simpl in Ht |- *. subst r. exists t. split; [reflexivity|exact Hct].
  - destruct (cast_columns dtype_valid cast_cell df dm) as [l r] eqn:E.
    simpl. left. reflexivity.
  - destruct Hin as [Heq|Hin]; [congruence|].
    destruct (Loader.cast_step_other dtype_valid cast_cell df c d col Hwf Hne)
      as (df1 & H1 & Hwf1 & Hcol1 & Hin1).
    simpl. rewrite (Loader.bind_ok_eq _ _ _ H1). simpl.
    destruct (IH Hnd' Hin df1 Hwf1 (Hin1 Hcol)) as [t [Ht Hct]];
      [rewrite Hcol1; exact He|].
    exists t. split; [exact Ht|congruence].
  - destruct Hin as [Heq|Hin]; [congruence|].
    destruct (Loader.cast_step_other dtype_valid cast_cell df c d col Hwf Hne)
      as (df1 & H1 & Hwf1 & Hcol1 & Hin1).
    simpl. rewrite (Loader.bind_ok_eq _ _ _ H1). simpl.
    apply in_or_app. right.
    apply (IH Hnd' Hin df1 Hwf1 (Hin1 Hcol)). rewrite Hcol1. exact He.
Qed.

(* ------------------------------------------------------------------ *)
(** ** resolve_conflicts *)

Module Resolve.

Lemma resolve_one_wf df b s sfx df' :
  wf df -> resolve_one df b s sfx = Ok df' -> wf df'.
Proof.
  unfold resolve_one. destruct sfx as [ls rs]. intros Hwf.
  destruct (negb _ || negb _); [intros H; injection H as <-; exact Hwf|].
  repeat match goal with
  | |- context [if ?b then _ else _] => destruct b
  end; intros H; try discriminate; injection H as <-; apply Cols.set_col_wf, Hwf.
Qed.

Lemma length_column t c : List.length (column t c) = List.length (rows t).
Proof. unfold column. apply length_map. Qed.

(** An iteration for base [b] changes no column but [b]. *)
Lemma resolve_one_other df b s sfx df' c :
  wf df -> c <> b -> resolve_one df b s sfx = Ok df' -> column df' c = column df c.
Proof.
  unfold resolve_one. destruct sfx as [ls rs]. intros Hwf Hne.
  destruct (negb _ || negb _); [intros H; injection H as <-; reflexivity|].
  repeat match goal with
  | |- context [if ?b then _ else _] => destruct b
  end; intros H; try discriminate; injection H as <-;
    apply Cols.column_set_col_other; auto; rewrite ?length_map, ?length_combine,
    ?length_column; lia.
Qed.

Lemma resolve_conflicts_other df spec sfx c :
  wf df -> (forall b s, In (b, s) spec -> b <> c) ->
  wf (fst (resolve_conflicts df spec sfx))
  /\ column (fst (resolve_conflicts df spec sfx)) c = column df c.
Proof.
  revert df; induction spec as [|[b s] spec IH]; intros df Hwf Hnot; simpl; [auto|].
  destruct (resolve_one df b s sfx) as [df1|e] eqn:E; simpl; [|auto].
  destruct (IH df1) as [Hw Hc].
  - eapply resolve_one_wf; eauto.
  - intros b' s' Hin. apply (Hnot b' s'). now right.
  - split; [exact Hw|]. rewrite Hc. apply (resolve_one_other df b s sfx); auto.
    intros Heq. apply (Hnot b s (or_introl eq_refl)). symmetry. exact Heq.
Qed.

Lemma resolve_conflicts_app df pre x post sfx :
  resolve_conflicts df (pre ++ x :: post) sfx
  = match resolve_conflicts df pre sfx with
    | (d, None) => resolve_conflicts d (x :: post) sfx
    | (d, Some e) => (d, Some e)
    end.
Proof.
  revert df; induction pre as [|[b s] pre IH]; intros df; simpl; [reflexivity|].
  destruct (resolve_one df b s sfx); [apply IH|reflexivity].
Qed.

Lemma resolve_conflicts_columns_present df spec sfx c :
  In c (columns df) -> In c (columns (fst (resolve_conflicts df spec sfx))).
Proof. apply Pipeline.resolve_conflicts_columns. Qed.

End Resolve.

(** C3 (as amended): when [resolve_conflicts] returns normally, the base
    [base] is mapped to ["coalesce"], both suffixed columns exist, and no
    other entry of the Conflict Spec names one of these suffixed columns,
    the column [base] of the resulting table is, row by row, the
    left-suffixed value of the input table when it is not missing and the
    right-suffixed value otherwise; a reconciled cell is missing exactly
    when both source cells are. *)
Theorem resolve_conflicts_coalesce (df : table) (spec : list (string * string))
    (ls rs base : string) :
  wf df -> NoDup (map fst spec) -> In (base, "coalesce") spec ->
  In (base ++ ls)%string (columns df) -> In (base ++ rs)%string (columns df) ->
  (forall b s, In (b, s) spec -> b <> base -> b <> (base ++ ls)%string /\ b <> (base ++ rs)%string) ->
  snd (resolve_conflicts df spec (ls, rs)) = None ->
  column (fst (resolve_conflicts df spec (ls, rs))) base
  = map (fun p => coalesce (fst p) (snd p))
        (combine (column df (base ++ ls)%string) (column df (base ++ rs)%string))
  /\ (forall a b, coalesce a b = None <-> a = None /\ b = None).
Proof.
  intros Hwf Hnd Hin Hl Hr Hsep Hok.
  split; [|intros [a|] b; simpl; split; intros H; try discriminate;
           try (destruct H; discriminate); auto; destruct H; assumption].
  revert df Hwf Hl Hr Hok. induction spec as [|[b s] spec IH];
    intros df Hwf Hl Hr Hok; [contradiction|].
  simpl in Hnd. inversion Hnd as [|? ? Hnot Hnd']; subst.
  cbn [resolve_conflicts] in Hok |- *.
  destruct (String.eqb_spec b base) as [->|Hne].
  - assert (s = "coalesce").
    { destruct Hin as [Heq|Hin]; [congruence|].
      exfalso. apply Hnot. apply (in_map fst) in Hin. exact Hin. }
    subst s.
    unfold resolve_one.
    apply mem_In in Hl. apply mem_In in Hr. rewrite Hl, Hr. simpl.
    destruct (Resolve.resolve_conflicts_other
                (set_col df base (map (fun p => coalesce (fst p) (snd p))
                   (combine (column df (base ++ ls)%string) (column df (base ++ rs)%string))))
                spec (ls, rs) base) as [_ Hc].
    + apply Cols.set_col_wf, Hwf.
    + intros b' s' Hin' ->. apply Hnot. apply (in_map fst) in Hin'. exact Hin'.
    + rewrite Hc. apply Cols.column_set_col_same; [exact Hwf|].
      rewrite length_map, length_combine, !Resolve.length_column. lia.
  - destruct Hin as [Heq|Hin]; [congruence|].
    destruct (resolve_one df b s (ls, rs)) as [df1|e] eqn:E; [|simpl in Hok; discriminate].
    destruct (Hsep b s (or_introl eq_refl) Hne) as [Hbl Hbr].
    rewrite (IH Hnd' Hin).
    + rewrite (Resolve.resolve_one_other df b s (ls, rs) df1 (base ++ ls)%string),
              (Resolve.resolve_one_other df b s (ls, rs) df1 (base ++ rs)%string); auto.
    + intros b' s' Hin' Hne'. apply (Hsep b' s'); auto. now right.
    + eapply Resolve.resolve_one_wf; eauto.
    + eapply Pipeline.resolve_one_columns; eauto.
    + eapply Pipeline.resolve_one_columns; eauto.
    + exact Hok.
Qed.

Module Examples.

Definition sfx : string * string := ("_left", "_right").

(** Two inputs that both carry [city] and [city_left]: the merge suffixes
    both, producing [city_left], [city_left_left], [city_right] and
    [city_left_right]. *)
Definition left_cities : table :=
  mk_table ["id"; "city"; "city_left"] [[Some "1"; Some "A"; Some "X"]].

Definition right_cities : table :=
  mk_table ["id"; "city"; "city_left"] [[Some "1"; Some "B"; Some "Y"]].

Definition contacts : table :=
  mk_table ["id"; "city_left"; "city_right"; "email_left"; "email_right"]
           [[Some "1"; None; Some "NYC"; Some "a@x.com"; Some "b@x.com"]].

(** A merged table in which [email_left] is itself a base with suffixed
    columns: the entry for [email_left] creates [email_left], after which
    [email] has both of its suffixed columns. *)
Definition nested_emails : table :=
  mk_table ["id"; "email_left_left"; "email_left_right"; "email_right"]
           [[Some "1"; Some "a@x.com"; Some "c@x.com"; Some "b@x.com"]].

End Examples.

(** C3 refuted as stated: on a table returned by [merge_frames], the
    Conflict Spec [{"city_left": "right", "city": "coalesce"}] first
    overwrites [city_left] (the base [city_left] has the suffixed columns
    [city_left_left] and [city_left_right]), so the reconciled [city] is
    ["Y"] although the merged table's [city_left] holds ["A"], which is not
    missing. *)
Lemma resolve_conflicts_coalesce_counterexample :
  exists m,
    merge_frames Examples.left_cities Examples.right_cities ["id"] Inner None
                 Examples.sfx true = Ok m
    /\ column m "city_left" = [Some "A"]
    /\ column (fst (resolve_conflicts m [("city_left", "right"); ("city", "coalesce")]
                      Examples.sfx)) "city" = [Some "Y"]
    /\ column (fst (resolve_conflicts m [("city_left", "right"); ("city", "coalesce")]
                      Examples.sfx)) "city"
       <> map (fun p => coalesce (fst p) (snd p))
              (combine (column m "city_left") (column m "city_right")).
Proof.
  eexists. split; [reflexivity|].
  split; [reflexivity|]. split; [reflexivity|].
  vm_compute. discriminate.
Qed.

(** C4 (as amended): if the entries before [base] were processed without
    error, both suffixed columns of [base] exist in the table as those
    entries left it, and the strategy of [base] is not one of
    left/right/coalesce, [resolve_conflicts] raises [ValueError] naming that
    strategy and base; the caller's table is then the table as the earlier
    entries left it (their reconciled columns written in place).  An entry
    whose suffixed columns are not both present is skipped without looking
    at its strategy. *)
Theorem resolve_conflicts_unknown_strategy (df : table)
    (pre post : list (string * string)) (base strategy ls rs : string) :
  snd (resolve_conflicts df pre (ls, rs)) = None ->
  In (base ++ ls)%string (columns (fst (resolve_conflicts df pre (ls, rs)))) ->
  In (base ++ rs)%string (columns (fst (resolve_conflicts df pre (ls, rs)))) ->
  ~ In strategy ["left"; "right"; "coalesce"] ->
  resolve_conflicts df (pre ++ (base, strategy) :: post) (ls, rs)
  = (fst (resolve_conflicts df pre (ls, rs)),
     Some (ValueError (Msg_unknown_strategy strategy base)))
  /\ (forall (d : table) (s : string),
        ~ In (base ++ ls)%string (columns d) \/ ~ In (base ++ rs)%string (columns d) ->
        resolve_conflicts d ((base, s) :: post) (ls, rs) = resolve_conflicts d post (ls, rs)).
Proof.
  intros Hpre Hl Hr Hs. split.
  - rewrite Resolve.resolve_conflicts_app.
    destruct (resolve_conflicts df pre (ls, rs)) as [d [e|]] eqn:E;
      simpl in Hpre; [discriminate|]. simpl in Hl, Hr |- *.
    unfold resolve_one.
    apply mem_In in Hl. apply mem_In in Hr. rewrite Hl, Hr. simpl.
    destruct (String.eqb_spec strategy "left");
      [exfalso; apply Hs; left; congruence|].
    destruct (String.eqb_spec strategy "right");
      [exfalso; apply Hs; right; left; congruence|].
    destruct (String.eqb_spec strategy "coalesce");
      [exfalso; apply Hs; right; right; left; congruence|].
    reflexivity.
  - intros d s Hmiss. simpl. unfold resolve_one.
    destruct Hmiss as [H|H]; apply mem_false in H; rewrite H;
      [reflexivity|rewrite orb_true_r; reflexivity].
Qed.

(** C4 refuted as stated: with [{"city": "coalesce", "email": "middle"}]
    the [ValueError] comes after [city] was already written into the
    caller's table; and an unknown strategy for a base without suffixed
    columns ([{"zip": "middle"}]) raises nothing. *)
Lemma resolve_conflicts_unknown_strategy_counterexample :
  resolve_conflicts Examples.contacts [("city", "coalesce"); ("email", "middle")] Examples.sfx
  = (set_col Examples.contacts "city" [Some "NYC"],
     Some (ValueError (Msg_unknown_strategy "middle" "email")))
  /\ set_col Examples.contacts "city" [Some "NYC"] <> Examples.contacts
  /\ resolve_conflicts Examples.contacts [("zip", "middle")] Examples.sfx
     = (Examples.contacts, None).
Proof.
  split; [reflexivity|]. split; [vm_compute; discriminate|reflexivity].
Qed.

(* ------------------------------------------------------------------ *)
(** ** Inner joins *)

Module InnerJoin.

Section Relabel.

Variable f : string -> string.

Definition new_dup_pairs (so sr : list string) (cs : list string) :=
  filter (fun p => fst (snd p) && negb (snd (snd p)))
         (combine (map f cs) (combine (dup_flags_aux sr (map f cs)) (dup_flags_aux so cs))).

(** A label kept by [f] that already occurs among the relabelled labels
    but not among the original ones is a new duplicate. *)
Lemma new_dup_pairs_first k cs so sr :
  In k cs -> f k = k -> In k sr -> ~ In k so -> new_dup_pairs so sr cs <> [].
Proof.
  revert so sr; induction cs as [|c cs IH]; intros so sr Hk Hf Hsr Hso; [destruct Hk|].
  unfold new_dup_pairs; simpl.
  destruct (String.eqb_spec c k) as [->|Hne].
  - rewrite Hf. replace (mem k sr) with true by (symmetry; apply mem_In, Hsr).
    replace (mem k so) with false by (symmetry; apply mem_false, Hso).
    simpl. discriminate.
  - destruct Hk as [Hk|Hk]; [contradiction|].
    destruct (mem (f c) sr && negb (mem c so)); [simpl; discriminate|].
    apply (IH (c :: so) (f c :: sr) Hk Hf); [right; exact Hsr|].
    intros [H|H]; [apply Hne, H|apply Hso, H].
Qed.

(** With no new duplicate, a label kept by [f] is found at the same
    position before and after relabelling. *)
Lemma index_of_relabel k cs so sr :
  In k cs -> f k = k -> ~ In k so -> new_dup_pairs so sr cs = [] ->
  index_of k (map f cs) = index_of k cs.
Proof.
  revert so sr; induction cs as [|c cs IH]; intros so sr Hk Hf Hso Hnd; [destruct Hk|].
  simpl. destruct (String.eqb_spec k c) as [->|Hne].
  - rewrite Hf, String.eqb_refl. reflexivity.
  - destruct Hk as [Hk|Hk]; [congruence|].
    assert (Htl : new_dup_pairs (c :: so) (f c :: sr) cs = []).
    { unfold new_dup_pairs in Hnd |- *. simpl in Hnd.
      destruct (mem (f c) sr && negb (mem c so)); [discriminate|exact Hnd]. }
    destruct (String.eqb_spec k (f c)) as [Hfc|Hfc].
    + exfalso. apply (new_dup_pairs_first k cs (c :: so) (f c :: sr) Hk Hf);
        [left; congruence| |exact Htl].
      intros [H|H]; [congruence|contradiction].
    + rewrite (IH (c :: so) (f c :: sr) Hk Hf); [reflexivity| |exact Htl].
      intros [H|H]; [congruence|contradiction].
Qed.

End Relabel.

Lemma nth_firstn_pad i n m (r : list cell) :
  i < n -> nth i (firstn n (r ++ repeat None m)) None = nth i r None.
Proof.
  revert i n; induction r as [|x r IH]; intros i n Hi.
  - transitivity (@None string); [|destruct i; reflexivity]. simpl.
    revert i n Hi; induction m as [|m IHm]; intros i n Hi.
    + rewrite firstn_nil. destruct i; reflexivity.
    + destruct n as [|n]; [lia|]. destruct i as [|i]; [reflexivity|].
      simpl. apply IHm. lia.
  - destruct n as [|n]; [lia|]. destruct i as [|i]; [reflexivity|].
    simpl. apply IH. lia.
Qed.

Lemma not_in_overlap L R on k : In k on -> mem k (overlap L R on) = false.
Proof.
  intros Hk. apply mem_false. unfold overlap, right_nonkey.
  intros H. apply filter_In in H as [_ H]. apply mem_In, filter_In in H as [_ H].
  apply Bool.negb_true_iff, mem_false in H. contradiction.
Qed.

(** The key columns of a merge result are the left frame's key columns. *)
Lemma index_of_labels L R on suffixes k :
  In k on -> In k (columns L) ->
  new_dups (columns L) (map (relabel (overlap L R on) (fst suffixes)) (columns L)) = [] ->
  index_of k (MergeShape.labels L R on suffixes) = index_of k (columns L).
Proof.
  intros Hon HL Hnd.
  assert (E : index_of k (map (relabel (overlap L R on) (fst suffixes)) (columns L))
              = index_of k (columns L)).
  { apply (index_of_relabel _ k (columns L) [] []); [exact HL| |intros []|].
    - unfold relabel. rewrite not_in_overlap by exact Hon. reflexivity.
    - unfold new_dups in Hnd. apply map_eq_nil in Hnd. exact Hnd. }
  apply Cols.index_of_In in HL as [i Hi].
  unfold MergeShape.labels. rewrite Hi in E |- *.
  apply Cols.index_of_app_Some, E.
Qed.

Lemma key_of_both_row L R on suffixes l r :
  (forall k, In k on -> In k (columns L)) ->
  new_dups (columns L) (map (relabel (overlap L R on) (fst suffixes)) (columns L)) = [] ->
  key_of (MergeShape.labels L R on suffixes) on (fst (both_row L R on l r))
  = key_of (columns L) on l.
Proof.
  intros HL Hnd. unfold key_of. apply map_ext_in. intros k Hk.
  unfold get. rewrite (index_of_labels L R on suffixes k Hk (HL k Hk) Hnd).
  destruct (index_of k (columns L)) as [i|] eqn:Ei; [|reflexivity].
  apply Cols.index_of_lt in Ei. simpl. unfold left_part, fit.
  rewrite app_nth1 by (rewrite length_firstn, length_app, repeat_length; lia).
  apply nth_firstn_pad. exact Ei.
Qed.

Lemma keys_of_set_col_other t c vals on :
  wf t -> List.length vals = List.length (rows t) -> ~ In c on ->
  keys_of (set_col t c vals) on = keys_of t on.
Proof.
  intros Hwf Hlen Hc. unfold keys_of, key_of, set_col.
  destruct (index_of c (columns t)) as [i|] eqn:E; simpl;
    rewrite map_map;
    rewrite <- (Cols.map_combine_fst (fun r => map (get (columns t) r) on) (rows t) vals) by lia;
    apply map_ext_in; intros [r v] Hin; apply in_combine_l in Hin;
    apply Hwf in Hin; simpl; apply map_ext_in; intros c' Hc';
    assert (Hne : c' <> c) by (intros ->; contradiction); unfold get.
  - destruct (index_of c' (columns t)) as [j|] eqn:E'; [|reflexivity].
    apply Cols.nth_replace_other. intros ->. apply Hne. eapply Cols.index_of_inj; eauto.
  - destruct (index_of c' (columns t)) as [j|] eqn:E'.
    + rewrite (Cols.index_of_app_Some _ _ _ _ E').
      apply Cols.index_of_lt in E'. rewrite app_nth1 by lia. reflexivity.
    + rewrite (Cols.index_of_app_None _ _ _ E'). simpl.
      destruct (String.eqb_spec c' c); [contradiction|reflexivity].
Qed.

Lemma indicator_check_merge cs : indicator_check cs = None -> ~ In "_merge" cs.
Proof.
  unfold indicator_check.
  destruct (mem "_left_indicator" cs); [discriminate|].
  destruct (mem "_right_indicator" cs); [discriminate|].
  destruct (mem "_merge" cs) eqn:E; [discriminate|].
  intros _. apply mem_false, E.
Qed.

(** The key tuples of an inner merge result, row by row: one copy of the
    left row's key per matching right row. *)
Lemma keys_of_inner L R on validate suffixes M :
  merge_frames L R on Inner validate suffixes true = Ok M ->
  keys_of M on
  = flat_map (fun l => map (fun _ => key_of (columns L) on l) (matches_right L R on l))
             (rows L).
Proof.
  intros H. pose proof H as H'.
  apply MergeShape.merge_frames_Ok in H as (Hon & _ & Hind & Hnd & ->).
  specialize (Hind eq_refl). apply indicator_check_merge in Hind.
  rewrite keys_of_set_col_other.
  - unfold keys_of, MergeShape.joined. cbn [columns rows join_rows].
    rewrite map_map, flat_map_concat_map, concat_map, map_map,
      flat_map_concat_map.
    f_equal. apply map_ext. intros l. rewrite map_map.
    apply map_ext. intros r. apply key_of_both_row; [|exact Hnd].
    intros k Hk. apply Hon, Hk.
  - apply MergeShape.joined_wf.
  - unfold MergeShape.indicator_values, MergeShape.joined. simpl.
    rewrite !length_map. reflexivity.
  - intros Hk. apply Hind, in_or_app. left. apply Hon, Hk.
Qed.

Lemma key_count_app k xs ys : key_count k (xs ++ ys) = key_count k xs + key_count k ys.
Proof. unfold key_count. rewrite filter_app, length_app. reflexivity. Qed.

Lemma key_count_const {A} k x (l : list A) :
  key_count k (map (fun _ => x) l) = if key_eqb k x then List.length l else 0.
Proof.
  unfold key_count. induction l as [|y l IH]; simpl; [destruct (key_eqb k x); reflexivity|].
  destruct (key_eqb k x); simpl; rewrite IH; reflexivity.
Qed.

Lemma key_count_map {A} k (g : A -> list cell) (l : list A) :
  key_count k (map g l) = List.length (filter (fun a => key_eqb k (g a)) l).
Proof.
  unfold key_count. induction l as [|a l IH]; simpl; [reflexivity|].
  destruct (key_eqb k (g a)); simpl; rewrite IH; reflexivity.
Qed.

Lemma key_count_In k ks : 0 < key_count k ks <-> In k ks.
Proof.
  unfold key_count. induction ks as [|x ks IH]; simpl; [split; [lia|intros []]|].
  destruct (key_eqb k x) eqn:E; simpl.
  - apply key_eqb_eq in E as ->. split; [auto|lia].
  - rewrite IH. split; [auto|]. intros [->|H]; [|exact H].
    rewrite key_eqb_refl in E. discriminate.
Qed.

Lemma key_count_product (kl kr : list cell -> list cell) k ls rs :
  key_count k (flat_map (fun l => map (fun _ => kl l)
                                      (filter (fun r => key_eqb (kl l) (kr r)) rs)) ls)
  = key_count k (map kl ls) * key_count k (map kr rs).
Proof.
  induction ls as [|l ls IH]; [reflexivity|].
  cbn [flat_map map]. rewrite key_count_app, IH, key_count_const.
  change (key_count k (kl l :: map kl ls))
    with (List.length (filter (key_eqb k) (kl l :: map kl ls))).
  cbn [filter]. fold (key_count k (map kl ls)).
  destruct (key_eqb k (kl l)) eqn:E; [|reflexivity].
  apply key_eqb_eq in E as <-.
  rewrite <- (key_count_map k kr rs). cbn [List.length].
  fold (key_count k (map kl ls)). nia.
Qed.

Lemma merge_tags_inner L R on validate suffixes M :
  merge_frames L R on Inner validate suffixes true = Ok M ->
  forall v, In v (column M "_merge") -> v = Some "both".
Proof.
  intros H v Hv. apply MergeShape.merge_indicator_column in H as (_ & _ & E).
  rewrite E in Hv. unfold MergeShape.indicator_values in Hv. apply in_map_iff in Hv as [p [<- Hp]].
  simpl in Hp. apply in_flat_map in Hp as [l [_ Hp]].
  apply in_map_iff in Hp as [r [<- _]]. reflexivity.
Qed.

End InnerJoin.

(** C1 (as amended): whenever [merge_frames(A, B, K, "inner")] returns a
    table, every row of it has provenance [both]; each key tuple occurs in
    it exactly (occurrences in A) times (occurrences in B), so a key tuple
    occurs in the result if and only if it occurs in both inputs. *)
Theorem merge_frames_inner_rows (A B : table) (K : list string)
    (validate : option string) (suffixes : string * string) (M : table) :
  K <> [] ->
  merge_frames A B K Inner validate suffixes true = Ok M ->
  (forall v, In v (column M "_merge") -> v = Some "both")
  /\ (forall k, key_count k (keys_of M K) = key_count k (keys_of A K) * key_count k (keys_of B K))
  /\ (forall k, In k (keys_of M K) <-> In k (keys_of A K) /\ In k (keys_of B K)).
Proof.
  intros _ H.
  assert (Hc : forall k, key_count k (keys_of M K)
                         = key_count k (keys_of A K) * key_count k (keys_of B K)).
  { intros k. rewrite (InnerJoin.keys_of_inner _ _ _ _ _ _ H).
    unfold matches_right, keys_of. apply InnerJoin.key_count_product. }
  split; [exact (InnerJoin.merge_tags_inner _ _ _ _ _ _ H)|].
  split; [exact Hc|].
  intros k. rewrite <- !InnerJoin.key_count_In, Hc. split.
  - intros Hp. split; apply Nat.neq_0_lt_0; intros E; rewrite E in Hp; simpl in Hp; lia.
  - intros [Ha Hb]. apply Nat.mul_pos_pos; assumption.
Qed.

(** C1 refuted as stated: with [indicator=True] (as [merge_frames] calls
    pandas by default) an input that already has a [_merge] column makes
    the inner merge raise instead of returning the matching rows, although
    key [1] occurs on both sides. *)
Lemma merge_frames_inner_rows_counterexample :
  merge_frames (mk_table ["id"; "_merge"] [[Some "1"; Some "both"]])
               (mk_table ["id"; "v"] [[Some "1"; Some "y"]])
               ["id"] Inner None ("_left", "_right") true
  = Err (ValueError (Msg_indicator_column "_merge")).
Proof. reflexivity. Qed.

(* ------------------------------------------------------------------ *)
(** ** Instances of the theorems on concrete tables *)

Module Samples.

Definition customers : table :=
  mk_table ["customer_id"; "name"] [[Some "1"; Some "Ann"]; [Some "2"; Some "Bob"]].

Definition orders : table :=
  mk_table ["customer_id"; "total"]
           [[Some "1"; Some "10"]; [Some "1"; Some "20"]; [Some "3"; Some "5"]].

Definition repeated : table :=
  mk_table ["id"; "v"] [[Some "1"; Some "x"]; [Some "1"; Some "y"]].

Definition left_outer : table :=
  mk_table ["id"; "a"] [[Some "1"; Some "p"]; [Some "2"; Some "q"]].

Definition right_outer : table :=
  mk_table ["id"; "b"] [[Some "2"; Some "r"]; [Some "3"; Some "s"]].

Definition ages : table :=
  mk_table ["customer_id"; "age"] [[Some "1"; Some "abc"]].

End Samples.

Lemma merge_frames_inner_rows_witness :
  ["customer_id"] <> []
  /\ exists M,
       merge_frames Samples.customers Samples.orders ["customer_id"] Inner None
                    ("_left", "_right") true = Ok M
       /\ (forall v, In v (column M "_merge") -> v = Some "both")
       /\ (forall k, key_count k (keys_of M ["customer_id"])
                     = key_count k (keys_of Samples.customers ["customer_id"])
                       * key_count k (keys_of Samples.orders ["customer_id"]))
       /\ (forall k, In k (keys_of M ["customer_id"])
                     <-> In k (keys_of Samples.customers ["customer_id"])
                         /\ In k (keys_of Samples.orders ["customer_id"])).
Proof.
  split; [discriminate|].
  eexists. split; [reflexivity|].
  apply (merge_frames_inner_rows Samples.customers Samples.orders ["customer_id"] None
           ("_left", "_right")); [discriminate|reflexivity].
Defined.

Lemma audit_counts_merge_partition_witness :
  exists M,
    merge_frames Samples.left_outer Samples.right_outer ["id"] Outer None
                 ("_left", "_right") true = Ok M
    /\ exists c, audit_counts M = Ok c
                 /\ left_only c + right_only c + both c = total_rows c.
Proof.
  eexists. split; [reflexivity|].
  apply (audit_counts_merge_partition Samples.left_outer Samples.right_outer ["id"] Outer None
           ("_left", "_right")). reflexivity.
Defined.

Lemma resolve_conflicts_coalesce_witness :
  wf Examples.contacts
  /\ NoDup (map fst [("city", "coalesce"); ("email", "left")])
  /\ In ("city", "coalesce") [("city", "coalesce"); ("email", "left")]
  /\ In ("city" ++ "_left")%string (columns Examples.contacts)
  /\ In ("city" ++ "_right")%string (columns Examples.contacts)
  /\ (forall b s, In (b, s) [("city", "coalesce"); ("email", "left")] -> b <> "city" ->
        b <> ("city" ++ "_left")%string /\ b <> ("city" ++ "_right")%string)
  /\ snd (resolve_conflicts Examples.contacts [("city", "coalesce"); ("email", "left")]
                            ("_left", "_right")) = None
  /\ column (fst (resolve_conflicts Examples.contacts [("city", "coalesce"); ("email", "left")]
                                    ("_left", "_right"))) "city"
     = map (fun p => coalesce (fst p) (snd p))
           (combine (column Examples.contacts ("city" ++ "_left")%string)
                    (column Examples.contacts ("city" ++ "_right")%string))
  /\ (forall a b, coalesce a b = None <-> a = None /\ b = None).
Proof.
  assert (Hwf : wf Examples.contacts) by (intros r [<-|[]]; reflexivity).
  assert (Hnd : NoDup (map fst [("city", "coalesce"); ("email", "left")])).
  { simpl. constructor; [intros [H|[]]; discriminate|].
    constructor; [intros []|constructor]. }
  assert (Hin : In ("city", "coalesce") [("city", "coalesce"); ("email", "left")])
    by (left; reflexivity).
  assert (Hl : In ("city" ++ "_left")%string (columns Examples.contacts))
    by (right; left; reflexivity).
  assert (Hr : In ("city" ++ "_right")%string (columns Examples.contacts))
    by (right; right; left; reflexivity).
  assert (Hni : forall b s, In (b, s) [("city", "coalesce"); ("email", "left")] ->
                  b <> "city" ->
                  b <> ("city" ++ "_left")%string /\ b <> ("city" ++ "_right")%string).
  { intros b s [E|[E|[]]] Hb; injection E as <- <-; [contradiction|].
    split; discriminate. }
  assert (Hok : snd (resolve_conflicts Examples.contacts
                       [("city", "coalesce"); ("email", "left")] ("_left", "_right")) = None)
    by reflexivity.
  repeat (split; [assumption|]).
  exact (resolve_conflicts_coalesce Examples.contacts _ "_left" "_right" "city"
           Hwf Hnd Hin Hl Hr Hni Hok).
Defined.

Lemma resolve_conflicts_unknown_strategy_witness :
  snd (resolve_conflicts Examples.nested_emails [("email_left", "left")] ("_left", "_right")) = None
  /\ In ("email" ++ "_left")%string
        (columns (fst (resolve_conflicts Examples.nested_emails [("email_left", "left")]
                         ("_left", "_right"))))
  /\ In ("email" ++ "_right")%string
        (columns (fst (resolve_conflicts Examples.nested_emails [("email_left", "left")]
                         ("_left", "_right"))))
  /\ ~ In "middle" ["left"; "right"; "coalesce"]
  /\ resolve_conflicts Examples.nested_emails ([("email_left", "left")] ++ ("email", "middle") :: [])
                       ("_left", "_right")
     = (fst (resolve_conflicts Examples.nested_emails [("email_left", "left")] ("_left", "_right")),
        Some (ValueError (Msg_unknown_strategy "middle" "email")))
  /\ (forall (d : table) (s : string),
        ~ In ("email" ++ "_left")%string (columns d)
        \/ ~ In ("email" ++ "_right")%string (columns d) ->
        resolve_conflicts d (("email", s) :: []) ("_left", "_right")
        = resolve_conflicts d [] ("_left", "_right")).
Proof.
  assert (Hpre : snd (resolve_conflicts Examples.nested_emails [("email_left", "left")]
                        ("_left", "_right")) = None) by reflexivity.
  assert (Hl : In ("email" ++ "_left")%string
                 (columns (fst (resolve_conflicts Examples.nested_emails
                                  [("email_left", "left")] ("_left", "_right")))))
    by (apply mem_In; vm_compute; reflexivity).
  assert (Hr : In ("email" ++ "_right")%string
                 (columns (fst (resolve_conflicts Examples.nested_emails
                                  [("email_left", "left")] ("_left", "_right")))))
    by (apply mem_In; vm_compute; reflexivity).
  assert (Hs : ~ In "middle" ["left"; "right"; "coalesce"])
    by (intros [H|[H|[H|[]]]]; discriminate).
  repeat (split; [assumption|]).
  exact (resolve_conflicts_unknown_strategy Examples.nested_emails [("email_left", "left")] []
           "email" "middle" "_left" "_right" Hpre Hl Hr Hs).
Defined.

Lemma merge_frames_validate_violation_witness :
  (forall k, In k ["id"] -> In k (columns Samples.repeated) /\ In k (columns Samples.left_outer))
  /\ In "one_to_one" (card_tokens OneToOne)
  /\ ~ spec_contract_holds OneToOne (keys_of Samples.repeated ["id"])
                                    (keys_of Samples.left_outer ["id"])
  /\ exists m, merge_frames Samples.repeated Samples.left_outer ["id"] Inner
                            (Some "one_to_one") ("_left", "_right") true = Err (MergeError m).
Proof.
  assert (Hk : forall k, In k ["id"] ->
                 In k (columns Samples.repeated) /\ In k (columns Samples.left_outer))
    by (intros k [<-|[]]; split; left; reflexivity).
  assert (Ht : In "one_to_one" (card_tokens OneToOne)) by (left; reflexivity).
  assert (Hc : ~ spec_contract_holds OneToOne (keys_of Samples.repeated ["id"])
                                              (keys_of Samples.left_outer ["id"])).
  { simpl. intros [H _]. inversion H as [|x l Hx _]. apply Hx. left. reflexivity. }
  repeat (split; [assumption|]).
  exact (merge_frames_validate_violation Samples.repeated Samples.left_outer ["id"] Inner
           ("_left", "_right") true OneToOne "one_to_one" Hk Ht Hc).
Defined.

Lemma merge_frames_missing_key_witness :
  In "customer_id" ["customer_id"]
  /\ (~ In "customer_id" (columns Samples.repeated)
      \/ ~ In "customer_id" (columns Samples.orders))
  /\ merge_frames Samples.repeated Samples.orders ["customer_id"] Inner None
                  ("_left", "_right") true
     = Err (KeyError (Msg_join_keys_missing
                        (filter (fun x => negb (mem x (columns Samples.repeated))) ["customer_id"])
                        (filter (fun x => negb (mem x (columns Samples.orders))) ["customer_id"])))
  /\ (In "customer_id"
         (filter (fun x => negb (mem x (columns Samples.repeated))) ["customer_id"])
      \/ In "customer_id"
         (filter (fun x => negb (mem x (columns Samples.orders))) ["customer_id"])).
Proof.
  assert (Hk : In "customer_id" ["customer_id"]) by (left; reflexivity).
  assert (Hm : ~ In "customer_id" (columns Samples.repeated)
               \/ ~ In "customer_id" (columns Samples.orders))
    by (left; intros [H|[H|[]]]; discriminate).
  split; [exact Hk|]. split; [exact Hm|].
  exact (merge_frames_missing_key Samples.repeated Samples.orders ["customer_id"] Inner None
           ("_left", "_right") true "customer_id" Hk Hm).
Defined.

Lemma drop_dupes_on_last_spec_witness :
  (forall k, In k ["id"] -> In k (columns Samples.repeated))
  /\ exists out log,
       drop_dupes_on Samples.repeated ["id"] "last" = (log, Ok out)
       /\ columns out = columns Samples.repeated
       /\ NoDup (keys_of out ["id"])
       /\ (forall kv, In kv (keys_of Samples.repeated ["id"]) <-> In kv (keys_of out ["id"]))
       /\ (forall r, In r (rows out) ->
             exists pre post, rows Samples.repeated = pre ++ r :: post
               /\ forall r', In r' post ->
                    key_of (columns Samples.repeated) ["id"] r'
                    <> key_of (columns Samples.repeated) ["id"] r)
       /\ drop_dupes_on out ["id"] "last" = ([], Ok out).
Proof.
  assert (Hk : forall k, In k ["id"] -> In k (columns Samples.repeated))
    by (intros k [<-|[]]; left; reflexivity).
  split; [exact Hk|].
  exact (drop_dupes_on_last_spec Samples.repeated ["id"] Hk).
Defined.

Lemma cast_failure_keeps_column_witness :
  wf Samples.ages
  /\ NoDup (map fst [("age", "Int65")])
  /\ In ("age", "Int65") [("age", "Int65")]
  /\ In "age" (columns Samples.ages)
  /\ astype (fun d => String.eqb d "Int64") (fun _ v => Ok v)
            (column Samples.ages "age") "Int65"
     = Err (TypeError (Msg_dtype_not_understood "Int65"))
  /\ (exists t, snd (cast_columns (fun d => String.eqb d "Int64") (fun _ v => Ok v)
                                  Samples.ages [("age", "Int65")]) = Ok t
                /\ column t "age" = column Samples.ages "age")
  /\ In (Warn_cast "age" "Int65" (TypeError (Msg_dtype_not_understood "Int65")))
        (fst (cast_columns (fun d => String.eqb d "Int64") (fun _ v => Ok v)
                           Samples.ages [("age", "Int65")]))
  /\ (forall (pd_read_csv : string -> option table) (coerce_date : list cell -> cell -> cell)
        (to_datetime_error : list cell -> option exn)
        (path : string) (parse_dates : list string) (rename_map : list (string * string))
        (raw : table),
        pd_read_csv path = Some raw ->
        exists t, snd (read_csv pd_read_csv (fun d => String.eqb d "Int64") (fun _ v => Ok v)
                         coerce_date to_datetime_error path [("age", "Int65")]
                         parse_dates rename_map) = Ok t).
Proof.
  assert (Hwf : wf Samples.ages) by (intros r [<-|[]]; reflexivity).
  assert (Hnd : NoDup (map fst [("age", "Int65")]))
    by (constructor; [intros []|constructor]).
  assert (Hin : In ("age", "Int65") [("age", "Int65")]) by (left; reflexivity).
  assert (Hc : In "age" (columns Samples.ages)) by (right; left; reflexivity).
  assert (He : astype (fun d => String.eqb d "Int64") (fun _ v => Ok v)
                      (column Samples.ages "age") "Int65"
               = Err (TypeError (Msg_dtype_not_understood "Int65"))) by reflexivity.
  repeat (split; [assumption|]).
  exact (cast_failure_keeps_column (fun d => String.eqb d "Int64") (fun _ v => Ok v)
           Samples.ages [("age", "Int65")] "age" "Int65" _ Hwf Hnd Hin Hc He).
Defined.

(* ================================================================== *)
(** * Further properties of the module *)

(* ------------------------------------------------------------------ *)
(** ** drop_dupes_on *)

Module DedupFirst.

Section KeepFirst.
Variable kf : list cell -> list cell.

Lemma keep_first_keys kv seen rs :
  In kv (map kf (keep_first_aux kf seen rs)) <-> In kv (map kf rs) /\ ~ In kv seen.
Proof.
  revert seen; induction rs as [|r rs IH]; intros seen; simpl; [tauto|].
  destruct (has_key (kf r) seen) eqn:E.
  - apply has_key_In in E. rewrite IH. split; [tauto|].
    intros [[<-|H] Hn]; [contradiction|tauto].
  - apply has_key_false in E. simpl. rewrite IH. simpl.
    split.
    + intros [<-|[H Hn]]; [tauto|]. split; [tauto|]. intros Hs; apply Hn; tauto.
    + intros [[<-|H] Hn]; [tauto|].
      destruct (key_eqb (kf r) kv) eqn:Ek; [apply key_eqb_eq in Ek; tauto|].
      right. split; [exact H|]. intros [Heq|Hs]; [|apply Hn, Hs].
      rewrite Heq, key_eqb_refl in Ek. discriminate.
Qed.

Lemma keep_first_nodup seen rs : NoDup (map kf (keep_first_aux kf seen rs)).
Proof.
  revert seen; induction rs as [|r rs IH]; intros seen; simpl; [constructor|].
  destruct (has_key (kf r) seen) eqn:E; [apply IH|].
  simpl. constructor; [|apply IH].
  rewrite keep_first_keys. intros [_ Hn]. apply Hn. left. reflexivity.
Qed.

Lemma keep_first_is_first r seen rs :
  In r (keep_first_aux kf seen rs) ->
  exists pre post, rs = pre ++ r :: post /\ forall r', In r' pre -> kf r' <> kf r.
Proof.
  revert seen; induction rs as [|r0 rs IH]; intros seen; simpl; [contradiction|].
  destruct (has_key (kf r0) seen) eqn:E.
  - intros Hin. destruct (IH seen Hin) as [pre [post [-> Hpre]]].
    (* [r0]'s key was seen, and so was every key kept after it *)
    exists (r0 :: pre), post. split; [reflexivity|].
    intros r' [<-|Hr'] Heq; [|apply (Hpre r' Hr' Heq)].
    assert (Hk : In (kf r) (map kf (keep_first_aux kf seen (pre ++ r :: post))))
      by (apply in_map, Hin).
    apply keep_first_keys in Hk as [_ Hn]. apply Hn.
    rewrite <- Heq. apply has_key_In, E.
  - intros [<-|Hin].
    + exists [], rs. split; [reflexivity|intros _ []].
    + destruct (IH _ Hin) as [pre [post [-> Hpre]]].
      exists (r0 :: pre), post. split; [reflexivity|].
      intros r' [<-|Hr'] Heq; [|apply (Hpre r' Hr' Heq)].
      assert (Hk : In (kf r) (map kf (keep_first_aux kf (kf r0 :: seen) (pre ++ r :: post))))
        by (apply in_map, Hin).
      apply keep_first_keys in Hk as [_ Hn]. apply Hn. left. exact Heq.
Qed.

Lemma keep_first_nodup_id seen rs :
  NoDup (map kf rs) -> (forall r, In r rs -> ~ In (kf r) seen) ->
  keep_first_aux kf seen rs = rs.
Proof.
  revert seen; induction rs as [|r rs IH]; intros seen Hnd Hs; simpl; [reflexivity|].
  inversion Hnd as [|? ? Hnotin Hnd']; subst.
  assert (E : has_key (kf r) seen = false)
    by (apply has_key_false, Hs; left; reflexivity).
  rewrite E. f_equal. apply IH; [exact Hnd'|].
  intros r' Hr' [Heq|Hin].
  - apply Hnotin. rewrite Heq. apply in_map, Hr'.
  - apply (Hs r'); [right; exact Hr'|exact Hin].
Qed.

Lemma keep_first_idem rs :
  keep_first_aux kf [] (keep_first_aux kf [] rs) = keep_first_aux kf [] rs.
Proof. apply keep_first_nodup_id; [apply keep_first_nodup|intros _ _ []]. Qed.

Lemma keep_first_length seen rs :
  List.length (keep_first_aux kf seen rs) <= List.length rs
  /\ (List.length (keep_first_aux kf seen rs) = List.length rs ->
      keep_first_aux kf seen rs = rs).
Proof.
  revert seen; induction rs as [|r rs IH]; intros seen; simpl; [split; auto|].
  destruct (has_key (kf r) seen).
  - destruct (IH seen) as [H _]. split; [lia|intros E; lia].
  - destruct (IH (kf r :: seen)) as [H1 H2]. simpl. split; [lia|].
    intros E. f_equal. apply H2. lia.
Qed.

End KeepFirst.

Lemma keep_last_length kf rs :
  List.length (keep_last kf rs) <= List.length rs
  /\ (List.length (keep_last kf rs) = List.length rs -> keep_last kf rs = rs).
Proof.
  induction rs as [|r rs IH]; simpl; [split; auto|].
  destruct (has_key (kf r) (map kf rs)).
  - destruct IH as [H _]. split; [lia|intros E; lia].
  - destruct IH as [H1 H2]. simpl. split; [lia|].
    intros E. f_equal. apply H2. lia.
Qed.

(** [drop_dupes_on] with the keys present, written out. *)
Lemma drop_dupes_on_run df keys keep kept :
  (forall k, In k keys -> In k (columns df)) ->
  drop_duplicates df keys keep = Ok (mk_table (columns df) kept) ->
  drop_dupes_on df keys keep
  = ((if Nat.eqb (List.length kept) (List.length (rows df)) then []
      else [Info_removed (List.length (rows df) - List.length kept) keys]),
     Ok (mk_table (columns df) kept)).
Proof.
  intros Hk Hd. unfold drop_dupes_on. rewrite (missing_nil _ _ Hk), Hd. simpl.
  destruct (Nat.eqb _ _); reflexivity.
Qed.

Lemma drop_duplicates_kept df keys keep :
  keep = "first" \/ keep = "last" ->
  exists kept, drop_duplicates df keys keep = Ok (mk_table (columns df) kept)
    /\ List.length kept <= List.length (rows df)
    /\ (List.length kept = List.length (rows df) -> kept = rows df)
    /\ (NoDup (keys_of df keys) -> kept = rows df).
Proof.
  unfold drop_duplicates, keys_of. intros [->| ->]; simpl.
  - eexists. split; [reflexivity|].
    destruct (keep_first_length (key_of (columns df) keys) [] (rows df)) as [H1 H2].
    split; [exact H1|]. split; [exact H2|].
    intros Hnd. apply keep_first_nodup_id; [exact Hnd|intros _ _ []].
  - eexists. split; [reflexivity|].
    destruct (keep_last_length (key_of (columns df) keys) (rows df)) as [H1 H2].
    split; [exact H1|]. split; [exact H2|].
    apply Dedup.keep_last_nodup_id.
Qed.

End DedupFirst.

(** [drop_dupes_on] raises [KeyError] when a key column is missing, for
    any [keep]: the message lists exactly the keys absent from the
    table, in the order given, and nothing is logged. *)
Theorem drop_dupes_on_missing_keys (df : table) (keys : list string) (keep k : string) :
  In k keys -> ~ In k (columns df) ->
  drop_dupes_on df keys keep
  = ([], Err (KeyError (Msg_keys_not_found (filter (fun x => negb (mem x (columns df))) keys))))
  /\ (forall x, In x (filter (fun x => negb (mem x (columns df))) keys)
                <-> In x keys /\ ~ In x (columns df)).
Proof.
  intros Hk Hn. split.
  - unfold drop_dupes_on.
    destruct (filter (fun x => negb (mem x (columns df))) keys) as [|y ys] eqn:E;
      [|reflexivity].
    exfalso. assert (Hin : In k (filter (fun x => negb (mem x (columns df))) keys)).
    { apply filter_In. split; [exact Hk|]. apply negb_true_iff, mem_false, Hn. }
    rewrite E in Hin. destruct Hin.
  - intros x. rewrite filter_In, negb_true_iff, mem_false. tauto.
Qed.

(** With a non-empty list of present keys and [keep="first"] (as with
    ["last"]) [drop_dupes_on] keeps one row per key tuple, now the first
    one of the input with that key tuple; the columns and the set of key
    tuples are unchanged, and a second application returns the same table
    and logs nothing. *)
Theorem drop_dupes_on_first_spec (df : table) (keys : list string) :
  keys <> [] ->
  (forall k, In k keys -> In k (columns df)) ->
  exists out log,
    drop_dupes_on df keys "first" = (log, Ok out)
    /\ columns out = columns df
    /\ NoDup (keys_of out keys)
    /\ (forall kv, In kv (keys_of df keys) <-> In kv (keys_of out keys))
    /\ (forall r, In r (rows out) ->
          exists pre post, rows df = pre ++ r :: post
            /\ forall r', In r' pre -> key_of (columns df) keys r' <> key_of (columns df) keys r)
    /\ drop_dupes_on out keys "first" = ([], Ok out).
Proof.
  intros _ Hkeys.
  set (kf := key_of (columns df) keys).
  set (out := mk_table (columns df) (keep_first_aux kf [] (rows df))).
  assert (Hrun : forall t, columns t = columns df ->
            drop_dupes_on t keys "first"
            = ((if Nat.eqb (List.length (keep_first_aux kf [] (rows t))) (List.length (rows t))
                then [] else [Info_removed (List.length (rows t)
                                - List.length (keep_first_aux kf [] (rows t))) keys]),
               Ok (mk_table (columns df) (keep_first_aux kf [] (rows t))))).
  { intros t Ht. rewrite <- Ht. apply DedupFirst.drop_dupes_on_run.
    - rewrite Ht. exact Hkeys.
    - unfold drop_duplicates. rewrite Ht. reflexivity. }
  eexists out, _. split; [apply Hrun; reflexivity|].
  split; [reflexivity|].
  split; [apply DedupFirst.keep_first_nodup|].
  split.
  { intros kv. unfold keys_of, out. cbn [rows columns]. fold kf.
    rewrite DedupFirst.keep_first_keys. simpl. tauto. }
  split; [intros r Hr; now apply (DedupFirst.keep_first_is_first kf r [])|].
  rewrite (Hrun out eq_refl). simpl. rewrite DedupFirst.keep_first_idem, Nat.eqb_refl.
  reflexivity.
Qed.

(** With a non-empty list of present keys and [keep] "first" or "last",
    [drop_dupes_on] never adds rows and logs one [INFO] line giving the
    number of removed rows exactly when it removed some; when it removed
    none, or when the key tuples were already distinct, it returns its
    input unchanged. *)
Theorem drop_dupes_on_removed_log (df : table) (keys : list string) (keep : string) :
  keys <> [] ->
  (forall k, In k keys -> In k (columns df)) ->
  keep = "first" \/ keep = "last" ->
  exists out,
    drop_dupes_on df keys keep
    = ((if Nat.eqb (List.length (rows out)) (List.length (rows df)) then []
        else [Info_removed (List.length (rows df) - List.length (rows out)) keys]),
       Ok out)
    /\ List.length (rows out) <= List.length (rows df)
    /\ (List.length (rows out) = List.length (rows df) -> out = df)
    /\ (NoDup (keys_of df keys) -> drop_dupes_on df keys keep = ([], Ok df)).
Proof.
  intros _ Hk Hkeep.
  destruct (DedupFirst.drop_duplicates_kept df keys keep Hkeep)
    as (kept & Hd & Hle & Heq & Hnd).
  exists (mk_table (columns df) kept). cbn [rows].
  split; [apply DedupFirst.drop_dupes_on_run; assumption|].
  split; [exact Hle|].
  split; [intros E; rewrite (Heq E); destruct df; reflexivity|].
  intros Hn. rewrite (DedupFirst.drop_dupes_on_run df keys keep kept Hk Hd).
  rewrite (Hnd Hn), Nat.eqb_refl. destruct df; reflexivity.
Qed.

(* ------------------------------------------------------------------ *)
(** ** resolve_conflicts *)

Module Resolve2.

(** The values an entry writes under its base, by strategy. *)
Definition strategy_values (s : string) (lv rv : list cell) : list cell :=
  if String.eqb s "left" then lv
  else if String.eqb s "right" then rv
  else map (fun p => coalesce (fst p) (snd p)) (combine lv rv).

Lemma resolve_one_rows df b s sfx df' :
  resolve_one df b s sfx = Ok df' -> List.length (rows df') = List.length (rows df).
Proof.
  unfold resolve_one. destruct sfx as [ls rs].
  destruct (negb _ || negb _); [intros H; injection H as <-; reflexivity|].
  repeat match goal with
  | |- context [if ?b then _ else _] => destruct b
  end; intros H; try discriminate; injection H as <-;
    apply Cols.set_col_rows_length;
    rewrite ?length_map, ?length_combine, ?Resolve.length_column; lia.
Qed.

Lemma resolve_conflicts_rows df spec sfx :
  List.length (rows (fst (resolve_conflicts df spec sfx))) = List.length (rows df).
Proof.
  revert df; induction spec as [|[b s] spec IH]; intros df; simpl; [reflexivity|].
  destruct (resolve_one df b s sfx) eqn:E; simpl; [|reflexivity].
  rewrite IH. eapply resolve_one_rows; eauto.
Qed.

Lemma resolve_conflicts_wf df spec sfx :
  wf df -> wf (fst (resolve_conflicts df spec sfx)).
Proof.
  revert df; induction spec as [|[b s] spec IH]; intros df Hwf; simpl; [exact Hwf|].
  destruct (resolve_one df b s sfx) eqn:E; simpl; [|exact Hwf].
  apply IH. eapply Resolve.resolve_one_wf; eauto.
Qed.

(** The entry for [base] writes [strategy_values] of the input's
    suffixed columns, when no other entry touches those columns or
    [base]. *)
Lemma resolve_conflicts_entry df spec ls rs base s :
  wf df -> NoDup (map fst spec) -> In (base, s) spec ->
  In (base ++ ls)%string (columns df) -> In (base ++ rs)%string (columns df) ->
  (forall b s', In (b, s') spec -> b <> base ->
     b <> (base ++ ls)%string /\ b <> (base ++ rs)%string) ->
  snd (resolve_conflicts df spec (ls, rs)) = None ->
  column (fst (resolve_conflicts df spec (ls, rs))) base
  = strategy_values s (column df (base ++ ls)%string) (column df (base ++ rs)%string).
Proof.
  intros Hwf Hnd Hin Hl Hr Hsep Hok.
  revert df Hwf Hl Hr Hok. induction spec as [|[b s0] spec IH];
    intros df Hwf Hl Hr Hok; [contradiction|].
  simpl in Hnd. inversion Hnd as [|? ? Hnot Hnd']; subst.
  cbn [resolve_conflicts] in Hok |- *.
  destruct (String.eqb_spec b base) as [->|Hne].
  - assert (s0 = s).
    { destruct Hin as [Heq|Hin]; [congruence|].
      exfalso. apply Hnot. apply (in_map fst) in Hin. exact Hin. }
    subst s0.
    destruct (resolve_one df base s (ls, rs)) as [df1|e] eqn:E;
      [|simpl in Hok; discriminate].
    assert (Hdf1 : df1 = set_col df base (strategy_values s (column df (base ++ ls)%string)
                                                          (column df (base ++ rs)%string))).
    { unfold resolve_one in E.
      apply mem_In in Hl. apply mem_In in Hr. rewrite Hl, Hr in E. simpl in E.
      unfold strategy_values.
      destruct (String.eqb s "left"); [injection E as <-; reflexivity|].
      destruct (String.eqb s "right"); [injection E as <-; reflexivity|].
      destruct (String.eqb s "coalesce"); [injection E as <-; reflexivity|].
      discriminate. }
    destruct (Resolve.resolve_conflicts_other df1 spec (ls, rs) base) as [_ Hc].
    + rewrite Hdf1. apply Cols.set_col_wf, Hwf.
    + intros b' s' Hin' ->. apply Hnot. apply (in_map fst) in Hin'. exact Hin'.
    + rewrite Hc, Hdf1. apply Cols.column_set_col_same; [exact Hwf|].
      unfold strategy_values.
      destruct (String.eqb s "left"); [apply Resolve.length_column|].
      destruct (String.eqb s "right"); [apply Resolve.length_column|].
      rewrite length_map, length_combine, !Resolve.length_column. lia.
  - destruct Hin as [Heq|Hin]; [congruence|].
    destruct (resolve_one df b s0 (ls, rs)) as [df1|e] eqn:E; [|simpl in Hok; discriminate].
    destruct (Hsep b s0 (or_introl eq_refl) Hne) as [Hbl Hbr].
    rewrite (IH Hnd' Hin).
    + rewrite (Resolve.resolve_one_other df b s0 (ls, rs) df1 (base ++ ls)%string),
              (Resolve.resolve_one_other df b s0 (ls, rs) df1 (base ++ rs)%string); auto.
    + intros b' s' Hin' Hne'. apply (Hsep b' s'); auto. now right.
    + eapply Resolve.resolve_one_wf; eauto.
    + eapply Pipeline.resolve_one_columns; eauto.
    + eapply Pipeline.resolve_one_columns; eauto.
    + exact Hok.
Qed.




End Resolve2.

(** With the [left] or [right] strategy, the base column produced by
    [resolve_conflicts] is a copy of the left-suffixed, respectively
    right-suffixed, column of the table passed in, when the call returns
    normally and no other entry has one of these columns as its base. *)
Theorem resolve_conflicts_left_right (df : table) (spec : list (string * string))
    (ls rs base s : string) :
  wf df -> NoDup (map fst spec) -> In (base, s) spec -> s = "left" \/ s = "right" ->
  In (base ++ ls)%string (columns df) -> In (base ++ rs)%string (columns df) ->
  (forall b s', In (b, s') spec -> b <> base ->
     b <> (base ++ ls)%string /\ b <> (base ++ rs)%string) ->
  snd (resolve_conflicts df spec (ls, rs)) = None ->
  column (fst (resolve_conflicts df spec (ls, rs))) base
  = (if String.eqb s "left" then column df (base ++ ls)%string
     else column df (base ++ rs)%string).
Proof.
  intros Hwf Hnd Hin Hs Hl Hr Hsep Hok.
  rewrite (Resolve2.resolve_conflicts_entry df spec ls rs base s); auto.
  unfold Resolve2.strategy_values.
  destruct Hs as [->| ->]; reflexivity.
Qed.

(** [resolve_conflicts], whether it returns or raises, keeps every row and
    every column label, and changes no column other than the base columns
    named by the Conflict Spec: the suffixed columns stay as they were. *)
Theorem resolve_conflicts_preserves (df : table) (spec : list (string * string))
    (sfx : string * string) :
  wf df ->
  wf (fst (resolve_conflicts df spec sfx))
  /\ List.length (rows (fst (resolve_conflicts df spec sfx))) = List.length (rows df)
  /\ incl (columns df) (columns (fst (resolve_conflicts df spec sfx)))
  /\ (forall c, ~ In c (map fst spec) ->
        column (fst (resolve_conflicts df spec sfx)) c = column df c).
Proof.
  intros Hwf. split; [apply Resolve2.resolve_conflicts_wf, Hwf|].
  split; [apply Resolve2.resolve_conflicts_rows|].
  split; [intros c; apply Pipeline.resolve_conflicts_columns|].
  intros c Hc. apply Resolve.resolve_conflicts_other; [exact Hwf|].
  intros b s Hin ->. apply Hc. apply (in_map fst) in Hin. exact Hin.
Qed.

(** An entry whose suffixed columns are not both present is skipped
    without its strategy being looked at: when no entry of the Conflict
    Spec has both, [resolve_conflicts] returns its input unchanged and
    raises nothing, whatever the strategy strings. *)
Theorem resolve_conflicts_no_overlap (df : table) (spec : list (string * string))
    (ls rs : string) :
  (forall b s, In (b, s) spec ->
     ~ In (b ++ ls)%string (columns df) \/ ~ In (b ++ rs)%string (columns df)) ->
  resolve_conflicts df spec (ls, rs) = (df, None).
Proof.
  induction spec as [|[b s] spec IH]; intros H; simpl; [reflexivity|].
  unfold resolve_one.
  destruct (H b s (or_introl eq_refl)) as [Hn|Hn]; apply mem_false in Hn; rewrite Hn;
    [|rewrite orb_true_r]; simpl; apply IH; intros b' s' Hin; apply (H b' s'); now right.
Qed.


(* ------------------------------------------------------------------ *)
(** ** quick_merge_with_audit and merge_cli.py *)

Module Pipeline2.

Lemma bind_snd_ok_inv {A B} (m : M A) (k : A -> M B) b :
  snd (bind m k) = Ok b -> exists a, snd m = Ok a /\ snd (k a) = Ok b.
Proof.
  destruct m as [l [a|e]]; simpl; [|discriminate].
  destruct (k a) as [l2 r] eqn:E; simpl. intros H. exists a.
  rewrite E. split; [reflexivity|exact H].
Qed.





End Pipeline2.


(** In a successful run of [quick_merge_with_audit] whose Conflict Spec
    has no entry with base [_merge], the counts returned are
    [audit_counts] of the table returned, they add up
    ([left_only + right_only + both = total_rows]) and [total_rows] is
    that table's number of rows. *)
Theorem quick_merge_counts_partition
    (pd_read_csv : string -> option table)
    (dtype_valid : string -> bool) (cast_cell : string -> cell -> result cell)
    (coerce_date : list cell -> cell -> cell) (to_datetime_error : list cell -> option exn)
    (left_path right_path : string) (on : list string) (how : join_how)
    (left_dtypes right_dtypes : list (string * string))
    (left_parse_dates right_parse_dates : list string)
    (dedupe_left_keys dedupe_right_keys : list string)
    (validate : option string) (suffixes : string * string)
    (conflicts : list (string * string)) (merged : table) (c : counts) :
  ~ In "_merge" (map fst conflicts) ->
  snd (quick_merge_with_audit pd_read_csv dtype_valid cast_cell coerce_date
         to_datetime_error left_path right_path
         on how left_dtypes right_dtypes left_parse_dates right_parse_dates
         dedupe_left_keys dedupe_right_keys validate suffixes conflicts) = Ok (merged, c) ->
  audit_counts merged = Ok c
  /\ left_only c + right_only c + both c = total_rows c
  /\ total_rows c = List.length (rows merged).
Proof.
  intros Hnm Hq. unfold quick_merge_with_audit in Hq.
  apply Pipeline2.bind_snd_ok_inv in Hq as [lt [_ H]].
  apply Pipeline2.bind_snd_ok_inv in H as [rt [_ H]].
  apply Pipeline2.bind_snd_ok_inv in H as [lt' [_ H]].
  apply Pipeline2.bind_snd_ok_inv in H as [rt' [_ H]].
  apply Pipeline2.bind_snd_ok_inv in H as [m [Hm H]]. simpl in Hm.
  apply Pipeline2.bind_snd_ok_inv in H as [m' [Hm' H]].
  apply Pipeline2.bind_snd_ok_inv in H as [c' [Hc H]]. simpl in Hc, H.
  injection H as <- <-.
  destruct (MergeShape.merge_indicator_column _ _ _ _ _ _ _ Hm) as (Hwf & Hin & Hcol).
  assert (Hm'eq : wf m' /\ In "_merge" (columns m')
                  /\ column m' "_merge" = column m "_merge").
  { destruct (is_nil conflicts).
    - simpl in Hm'. injection Hm' as <-. auto.
    - destruct (resolve_conflicts m conflicts suffixes) as [m0 [e0|]] eqn:Ec;
        simpl in Hm'; [discriminate|]. injection Hm' as <-.
      replace m0 with (fst (resolve_conflicts m conflicts suffixes)) by (rewrite Ec; reflexivity).
      split; [apply Resolve2.resolve_conflicts_wf, Hwf|].
      split; [apply Pipeline.resolve_conflicts_columns, Hin|].
      apply Resolve.resolve_conflicts_other; [exact Hwf|].
      intros b s Hb ->. apply Hnm. apply (in_map fst) in Hb. exact Hb. }
  destruct Hm'eq as (Hwf' & Hin' & Hcol').
  unfold audit_counts in Hc |- *. apply mem_In in Hin'. rewrite Hin' in Hc |- *.
  simpl in Hc. injection Hc as <-. simpl.
  split; [reflexivity|]. split; [|reflexivity].
  replace (List.length (rows m')) with (List.length (column m' "_merge"))
    by (unfold column; apply length_map).
  apply count_partition. rewrite Hcol', Hcol. intros x Hx.
  unfold MergeShape.indicator_values in Hx.
  apply in_map_iff in Hx as [p [<- _]]. eauto.
Qed.

(** The command line's report samples [merged[merged["_merge"] ==
    "left_only"]] and [... == "right_only"] have exactly as many rows as
    the counts [audit_counts] reports for these tags, and the columns of
    the merged table. *)
Theorem cli_samples_match_counts (merged : table) (c : counts) :
  audit_counts merged = Ok c ->
  List.length (rows (select_eq merged "_merge" "left_only")) = left_only c
  /\ List.length (rows (select_eq merged "_merge" "right_only")) = right_only c
  /\ List.length (rows (select_eq merged "_merge" "both")) = both c
  /\ columns (select_eq merged "_merge" "left_only") = columns merged
  /\ columns (select_eq merged "_merge" "right_only") = columns merged.
Proof.
  unfold audit_counts. destruct (negb _); [discriminate|].
  intros H. injection H as <-. simpl.
  assert (G : forall v, List.length (filter (fun r => cell_eqb (get (columns merged) r "_merge")
                                                               (Some v)) (rows merged))
                        = count_value v (column merged "_merge")).
  { intros v. unfold count_value, column.
    induction (rows merged) as [|r rs IH]; simpl; [reflexivity|].
    destruct (cell_eqb _ _); simpl; rewrite IH; reflexivity. }
  rewrite !G. auto.
Qed.

(* ------------------------------------------------------------------ *)
(** ** merge_frames: rows and provenance by join type *)

Module MergeCounts.

Lemma index_of_nth k cs i d : index_of k cs = Some i -> nth i cs d = k.
Proof.
  revert i; induction cs as [|c cs IH]; intros i; simpl; [discriminate|].
  destruct (String.eqb_spec k c) as [->|Hne].
  - intros H; injection H as <-. reflexivity.
  - destruct (index_of k cs) as [j|] eqn:E; simpl; [|discriminate].
    intros H; injection H as <-. apply IH. reflexivity.
Qed.

Lemma nth_map_lt {A B} (f : A -> B) (l : list A) i (d : B) (da : A) :
  i < List.length l -> nth i (map f l) d = f (nth i l da).
Proof.
  revert i; induction l as [|a l IH]; intros [|i] Hi; simpl in *; try lia; auto.
  apply IH. lia.
Qed.

Lemma key_eqb_sym a b : key_eqb a b = key_eqb b a.
Proof.
  destruct (key_eqb a b) eqn:E.
  - apply key_eqb_eq in E as ->. symmetry. apply key_eqb_refl.
  - destruct (key_eqb b a) eqn:E'; [|reflexivity].
    apply key_eqb_eq in E' as ->. rewrite key_eqb_refl in E. discriminate.
Qed.

Section Frames.
Variables (L R : table) (on : list string) (suffixes : string * string).
Hypothesis HL : forall k, In k on -> In k (columns L).
Hypothesis Hnd :
  new_dups (columns L) (map (relabel (overlap L R on) (fst suffixes)) (columns L)) = [].

Let kl := key_of (columns L) on.
Let kr := key_of (columns R) on.
Let labels := MergeShape.labels L R on suffixes.

Lemma key_of_left_block l tail :
  key_of labels on (left_part L l ++ tail) = kl l.
Proof.
  unfold kl, key_of. apply map_ext_in. intros k Hk.
  unfold get, labels. rewrite (InnerJoin.index_of_labels L R on suffixes k Hk (HL k Hk) Hnd).
  destruct (index_of k (columns L)) as [i|] eqn:Ei; [|reflexivity].
  apply Cols.index_of_lt in Ei. unfold left_part, fit.
  rewrite app_nth1 by (rewrite length_firstn, length_app, repeat_length; lia).
  apply InnerJoin.nth_firstn_pad. exact Ei.
Qed.

Lemma key_of_right_block r tail :
  key_of labels on (right_only_left_part L R on r ++ tail) = kr r.
Proof.
  unfold kr, key_of. apply map_ext_in. intros k Hk.
  unfold get at 1, labels.
  rewrite (InnerJoin.index_of_labels L R on suffixes k Hk (HL k Hk) Hnd).
  destruct (index_of k (columns L)) as [i|] eqn:Ei;
    [|exfalso; apply Cols.index_of_None in Ei; apply Ei, HL, Hk].
  pose proof (Cols.index_of_lt _ _ _ Ei) as Hi.
  unfold right_only_left_part.
  rewrite app_nth1 by (rewrite length_map; exact Hi).
  rewrite (nth_map_lt _ _ _ _ "" Hi), (index_of_nth _ _ _ _ Ei).
  replace (mem k on) with true by (symmetry; apply mem_In, Hk). reflexivity.
Qed.

(** How many joined rows carry the key tuple [k]. *)
Definition key_count_rows (k : list cell) (jr : list (list cell * tag)) : nat :=
  key_count k (map (fun p => key_of labels on (fst p)) jr).

Lemma key_count_rows_app k xs ys :
  key_count_rows k (xs ++ ys) = key_count_rows k xs + key_count_rows k ys.
Proof. unfold key_count_rows. rewrite map_app. apply InnerJoin.key_count_app. Qed.

Lemma key_count_rows_const k x xs :
  (forall p, In p xs -> key_of labels on (fst p) = x) ->
  key_count_rows k xs = if key_eqb k x then List.length xs else 0.
Proof.
  intros H. unfold key_count_rows.
  rewrite (map_ext_in _ (fun _ => x)) by exact H.
  apply InnerJoin.key_count_const.
Qed.

Lemma length_matches_right l :
  List.length (matches_right L R on l) = key_count (kl l) (keys_of R on).
Proof.
  unfold matches_right, keys_of. rewrite InnerJoin.key_count_map. reflexivity.
Qed.

Lemma length_matches_left r :
  List.length (matches_left L R on r) = key_count (kr r) (keys_of L on).
Proof.
  unfold matches_left, keys_of. rewrite InnerJoin.key_count_map.
  f_equal. apply filter_ext. intros l. apply key_eqb_sym.
Qed.

Lemma key_count_cons k x xs :
  key_count k (x :: xs) = (if key_eqb k x then 1 else 0) + key_count k xs.
Proof. unfold key_count. simpl. destruct (key_eqb k x); reflexivity. Qed.

(** Rows built per element of [xs], all carrying the key [f a] and
    [n (f a)] in number. *)
Lemma key_count_rows_flat_map {A} (g : A -> list (list cell * tag)) (f : A -> list cell)
    (n : list cell -> nat) k xs :
  (forall a p, In a xs -> In p (g a) -> key_of labels on (fst p) = f a) ->
  (forall a, In a xs -> List.length (g a) = n (f a)) ->
  key_count_rows k (flat_map g xs) = key_count k (map f xs) * n k.
Proof.
  induction xs as [|a xs IH]; intros Hk Hn; [reflexivity|].
  cbn [flat_map map]. rewrite key_count_rows_app, key_count_cons, IH.
  - rewrite (key_count_rows_const k (f a)) by (intros p Hp; apply Hk; [left|]; auto).
    destruct (key_eqb k (f a)) eqn:E; [|lia].
    apply key_eqb_eq in E. rewrite Hn by (left; reflexivity). rewrite E. lia.
  - intros a' p Ha' Hp. apply Hk; [right|]; auto.
  - intros a' Ha'. apply Hn. right. exact Ha'.
Qed.

Lemma key_count_left_rows k :
  key_count_rows k (left_rows L R on)
  = key_count k (keys_of L on) * Nat.max 1 (key_count k (keys_of R on)).
Proof.
  unfold left_rows. change (keys_of L on) with (map kl (rows L)).
  apply (key_count_rows_flat_map _ kl (fun x => Nat.max 1 (key_count x (keys_of R on)))).
  - intros l p _ Hp. destruct (matches_right L R on l).
    + destruct Hp as [<-|[]]. apply key_of_left_block.
    + apply in_map_iff in Hp as [r [<- _]]. apply key_of_left_block.
  - intros l _. rewrite <- length_matches_right.
    destruct (matches_right L R on l); simpl; [reflexivity|].
    rewrite length_map. lia.
Qed.

Lemma key_count_join_rows how k :
  key_count_rows k (join_rows how L R on)
  = let a := key_count k (keys_of L on) in
    let b := key_count k (keys_of R on) in
    match how with
    | Inner => a * b
    | Left => a * Nat.max 1 b
    | Right => b * Nat.max 1 a
    | Outer => a * Nat.max 1 b + (if Nat.eqb a 0 then b else 0)
    end.
Proof.
  destruct how; cbn [join_rows].
  - change (keys_of L on) with (map kl (rows L)).
    apply (key_count_rows_flat_map _ kl (fun x => key_count x (keys_of R on))).
    + intros l p _ Hp. apply in_map_iff in Hp as [r [<- _]]. apply key_of_left_block.
    + intros l _. rewrite length_map. apply length_matches_right.
  - apply key_count_left_rows.
  - change (keys_of R on) with (map kr (rows R)).
    apply (key_count_rows_flat_map _ kr (fun x => Nat.max 1 (key_count x (keys_of L on)))).
    + intros r p _ Hp. destruct (matches_left L R on r) as [|l0 ms] eqn:E.
      * destruct Hp as [<-|[]]. apply key_of_right_block.
      * rewrite <- E in Hp. apply in_map_iff in Hp as [l [<- Hl]].
        unfold matches_left in Hl. apply filter_In in Hl as [_ Hl].
        apply key_eqb_eq in Hl. unfold both_row. cbn [fst]. rewrite key_of_left_block. exact Hl.
    + intros r _. rewrite <- length_matches_left.
      destruct (matches_left L R on r); simpl; [reflexivity|].
      rewrite length_map. lia.
  - rewrite key_count_rows_app, key_count_left_rows. f_equal.
    assert (E : map (right_only_row L R on)
                    (filter (fun r => is_nil (matches_left L R on r)) (rows R))
                = flat_map (fun r => if is_nil (matches_left L R on r)
                                     then [right_only_row L R on r] else []) (rows R)).
    { induction (rows R) as [|r rs IH]; [reflexivity|]. simpl.
      destruct (is_nil (matches_left L R on r)); simpl; rewrite IH; reflexivity. }
    rewrite E. change (keys_of R on) with (map kr (rows R)).
    rewrite (key_count_rows_flat_map _ kr
               (fun x => if Nat.eqb (key_count x (keys_of L on)) 0 then 1 else 0)).
    + destruct (Nat.eqb _ 0); lia.
    + intros r p _ Hp. destruct (is_nil (matches_left L R on r)); [|destruct Hp].
      destruct Hp as [<-|[]]. apply key_of_right_block.
    + intros r _. rewrite <- length_matches_left.
      destruct (matches_left L R on r); reflexivity.
Qed.

End Frames.

Definition tag_count (t : tag) (jr : list (list cell * tag)) : nat :=
  count_value (tag_str t) (MergeShape.indicator_values jr).

Definition tag_eqb (a b : tag) : bool :=
  match a, b with
  | LeftOnly, LeftOnly | RightOnly, RightOnly | Both, Both => true
  | _, _ => false
  end.

Lemma tag_count_app t xs ys : tag_count t (xs ++ ys) = tag_count t xs + tag_count t ys.
Proof.
  unfold tag_count, count_value, MergeShape.indicator_values.
  rewrite map_app, filter_app, length_app. reflexivity.
Qed.

Lemma tag_count_map t {A} (f : A -> list cell * tag) t0 ms :
  (forall x, snd (f x) = t0) ->
  tag_count t (map f ms) = if tag_eqb t0 t then List.length ms else 0.
Proof.
  intros H. induction ms as [|x ms IH]; [destruct (tag_eqb t0 t); reflexivity|].
  change (map f (x :: ms)) with ([f x] ++ map f ms).
  rewrite tag_count_app, IH. unfold tag_count, count_value. simpl. rewrite H.
  destruct t0, t; reflexivity.
Qed.

Lemma tag_count_flat_map {A} t (g : A -> list (list cell * tag)) (n : A -> nat) xs :
  (forall a, tag_count t (g a) = n a) ->
  tag_count t (flat_map g xs) = list_sum (map n xs).
Proof.
  intros H. induction xs as [|a xs IH]; [reflexivity|].
  simpl. rewrite tag_count_app, H, IH. reflexivity.
Qed.

Lemma length_filter_sum {A} (p : A -> bool) xs :
  List.length (filter p xs) = list_sum (map (fun a => if p a then 1 else 0) xs).
Proof. induction xs as [|a xs IH]; [reflexivity|]. simpl. destruct (p a); simpl; lia. Qed.

Lemma list_sum_zero {A} (xs : list A) : list_sum (map (fun _ => 0) xs) = 0.
Proof. induction xs; simpl; auto. Qed.

(** Counting the matching pairs from either side. *)
Lemma pairs_swap {A B} (P : A -> B -> bool) (ls : list A) (rs : list B) :
  List.length (flat_map (fun r => filter (fun l => P l r) ls) rs)
  = List.length (flat_map (fun l => filter (fun r => P l r) rs) ls).
Proof.
  revert ls; induction rs as [|r rs IH]; intros ls; simpl.
  - induction ls; simpl; auto.
  - rewrite length_app, IH. clear IH.
    induction ls as [|l ls IHl]; simpl; [reflexivity|].
    destruct (P l r); simpl; rewrite ?length_app in *; simpl; rewrite ?length_app; lia.
Qed.

Lemma tag_counts_join_rows L R on how :
  tag_count LeftOnly (join_rows how L R on)
  = match how with
    | Left | Outer => List.length (filter (fun l => is_nil (matches_right L R on l)) (rows L))
    | _ => 0
    end
  /\ tag_count RightOnly (join_rows how L R on)
  = match how with
    | Right | Outer => List.length (filter (fun r => is_nil (matches_left L R on r)) (rows R))
    | _ => 0
    end
  /\ tag_count Both (join_rows how L R on)
  = List.length (flat_map (matches_right L R on) (rows L)).
Proof.
  assert (HLr : forall t, tag_count t (left_rows L R on)
    = list_sum (map (fun l => match matches_right L R on l with
                              | [] => if tag_eqb LeftOnly t then 1 else 0
                              | ms => if tag_eqb Both t then List.length ms else 0
                              end) (rows L))).
  { intros t. unfold left_rows. apply tag_count_flat_map. intros l.
    destruct (matches_right L R on l) as [|r ms].
    - change [left_only_row L R on l] with (map (left_only_row L R on) [l]).
      rewrite (tag_count_map t _ LeftOnly) by reflexivity. reflexivity.
    - rewrite (tag_count_map t _ Both) by reflexivity. reflexivity. }
  assert (Hsum : forall (f g : list cell -> nat) xs,
            (forall x, f x = g x) -> list_sum (map f xs) = list_sum (map g xs)).
  { intros f g xs H. f_equal. apply map_ext, H. }
  assert (HB : List.length (flat_map (matches_right L R on) (rows L))
               = list_sum (map (fun l => List.length (matches_right L R on l)) (rows L)))
    by apply length_flat_map.
  destruct how; cbn [join_rows].
  - split; [|split].
    + rewrite (tag_count_flat_map _ _ (fun _ => 0)), list_sum_zero; [reflexivity|].
      intros l. rewrite (tag_count_map _ _ Both) by reflexivity. reflexivity.
    + rewrite (tag_count_flat_map _ _ (fun _ => 0)), list_sum_zero; [reflexivity|].
      intros l. rewrite (tag_count_map _ _ Both) by reflexivity. reflexivity.
    + rewrite (tag_count_flat_map _ _ (fun l => List.length (matches_right L R on l))), HB;
      [reflexivity|].
    intros l. rewrite (tag_count_map _ _ Both) by reflexivity. reflexivity.
  - rewrite !HLr. split; [|split].
    + rewrite length_filter_sum. apply Hsum. intros l.
      destruct (matches_right L R on l); reflexivity.
    + transitivity (list_sum (map (fun _ : list cell => 0) (rows L)));
        [|apply list_sum_zero].
      apply Hsum. intros l. destruct (matches_right L R on l); reflexivity.
    + rewrite HB. apply Hsum. intros l. destruct (matches_right L R on l); reflexivity.
  - assert (HR : forall t, tag_count t
        (flat_map (fun r => match matches_left L R on r with
                            | [] => [right_only_row L R on r]
                            | ms => map (fun l => both_row L R on l r) ms
                            end) (rows R))
      = list_sum (map (fun r => match matches_left L R on r with
                                | [] => if tag_eqb RightOnly t then 1 else 0
                                | ms => if tag_eqb Both t then List.length ms else 0
                                end) (rows R))).
    { intros t. apply tag_count_flat_map. intros r.
      destruct (matches_left L R on r) as [|l ms].
      - change [right_only_row L R on r] with (map (right_only_row L R on) [r]).
        rewrite (tag_count_map t _ RightOnly) by reflexivity. reflexivity.
      - rewrite (tag_count_map t _ Both) by reflexivity. reflexivity. }
    rewrite !HR. split; [|split].
    + transitivity (list_sum (map (fun _ : list cell => 0) (rows R)));
        [|apply list_sum_zero].
      apply Hsum. intros r. destruct (matches_left L R on r); reflexivity.
    + rewrite length_filter_sum. apply Hsum. intros r.
      destruct (matches_left L R on r); reflexivity.
    + transitivity (List.length (flat_map (matches_left L R on) (rows R))).
      * rewrite length_flat_map. apply Hsum. intros r.
        destruct (matches_left L R on r); reflexivity.
      * unfold matches_left, matches_right.
        exact (pairs_swap (fun l r => key_eqb (key_of (columns L) on l)
                                              (key_of (columns R) on r)) (rows L) (rows R)).
  - rewrite !tag_count_app, !HLr.
    rewrite !(tag_count_map _ (right_only_row L R on) RightOnly) by reflexivity.
    cbn [tag_eqb]. split; [|split].
    + rewrite Nat.add_0_r, length_filter_sum. apply Hsum. intros l.
      destruct (matches_right L R on l); reflexivity.
    + match goal with |- ?a + _ = _ => enough (a = 0) by lia end.
      transitivity (list_sum (map (fun _ : list cell => 0) (rows L)));
        [|apply list_sum_zero].
      apply Hsum. intros l. destruct (matches_right L R on l); reflexivity.
    + rewrite Nat.add_0_r, HB. apply Hsum. intros l.
      destruct (matches_right L R on l); reflexivity.
Qed.

End MergeCounts.

(** The key tuples of a successful merge, counted per join type: a key
    tuple occurring [a] times on the left and [b] times on the right
    occurs [a*b] times after an inner merge, [a * max 1 b] times after a
    left merge, [b * max 1 a] times after a right merge, and after an
    outer merge [a * max 1 b] times plus [b] more when it has no left row. *)
Theorem merge_frames_key_counts (L R : table) (on : list string) (how : join_how)
    (validate : option string) (suffixes : string * string) (M : table) (k : list cell) :
  merge_frames L R on how validate suffixes true = Ok M ->
  let a := key_count k (keys_of L on) in
  let b := key_count k (keys_of R on) in
  key_count k (keys_of M on)
  = match how with
    | Inner => a * b
    | Left => a * Nat.max 1 b
    | Right => b * Nat.max 1 a
    | Outer => a * Nat.max 1 b + (if Nat.eqb a 0 then b else 0)
    end.
Proof.
  intros H.
  apply MergeShape.merge_frames_Ok in H as (Hon & _ & Hind & Hnd & ->).
  specialize (Hind eq_refl). apply InnerJoin.indicator_check_merge in Hind.
  assert (HL : forall c, In c on -> In c (columns L)) by (intros c Hc; apply Hon, Hc).
  rewrite InnerJoin.keys_of_set_col_other.
  - pose proof (MergeCounts.key_count_join_rows L R on suffixes HL Hnd how k) as E.
    unfold MergeCounts.key_count_rows in E.
    assert (EK : keys_of (MergeShape.joined L R on suffixes how) on
                 = map (fun p => key_of (MergeShape.labels L R on suffixes) on (fst p))
                       (join_rows how L R on))
      by (unfold keys_of, MergeShape.joined; cbn [columns rows]; apply map_map).
    rewrite EK. exact E.
  - apply MergeShape.joined_wf.
  - unfold MergeShape.indicator_values, MergeShape.joined. cbn [rows].
    rewrite !length_map. reflexivity.
  - intros Hm. apply Hind, in_or_app. left. apply Hon, Hm.
Qed.

(** The audit of a successful merge, per join type: [left_only] counts the
    left rows without a match (left and outer merges only), [right_only]
    the right rows without a match (right and outer merges only), and
    [both] the matching (left row, right row) pairs. *)
Theorem merge_frames_audit_by_how (L R : table) (on : list string) (how : join_how)
    (validate : option string) (suffixes : string * string) (M : table) :
  merge_frames L R on how validate suffixes true = Ok M ->
  audit_counts M
  = Ok (mk_counts
          (match how with
           | Left | Outer =>
               List.length (filter (fun l => is_nil (matches_right L R on l)) (rows L))
           | _ => 0
           end)
          (match how with
           | Right | Outer =>
               List.length (filter (fun r => is_nil (matches_left L R on r)) (rows R))
           | _ => 0
           end)
          (List.length (flat_map (matches_right L R on) (rows L)))
          (List.length (rows M))).
Proof.
  intros H. apply MergeShape.merge_indicator_column in H as (_ & Hin & Hcol).
  destruct (MergeCounts.tag_counts_join_rows L R on how) as (E1 & E2 & E3).
  unfold MergeCounts.tag_count in E1, E2, E3. cbn [tag_str] in E1, E2, E3.
  unfold audit_counts. apply mem_In in Hin. rewrite Hin. cbn [negb].
  rewrite Hcol, E1, E2, E3. reflexivity.
Qed.

(* ------------------------------------------------------------------ *)
(** ** The column loops of read_csv *)

(** Both loops of [read_csv] have the shape [for item in items: if col in
    df.columns: try: df[col] = convert(df[col]) except Exception as e:
    print(warning)]; [loop] is that shape, and the two source loops are
    instances of it. *)
Module ColumnLoop.

Lemma bind_ext {A B} (m : M A) (k1 k2 : A -> M B) :
  (forall a, k1 a = k2 a) -> bind m k1 = bind m k2.
Proof. intros H. destruct m as [l [a|e]]; simpl; [rewrite H|]; reflexivity. Qed.

Lemma set_col_present df c v : In c (columns df) -> columns (set_col df c v) = columns df.
Proof.
  intros H. unfold set_col. destruct (index_of c (columns df)) eqn:E; [reflexivity|].
  apply Cols.index_of_None in E. contradiction.
Qed.

Section Loop.

Variable A : Type.
Variable key : A -> string.
Variable conv : A -> list cell -> result (list cell).
Variable warn : A -> exn -> diag.
Hypothesis conv_length :
  forall a vals vs, conv a vals = Ok vs -> List.length vs = List.length vals.

Definition step (df : table) (a : A) : M table :=
  if mem (key a) (columns df) then
    match conv a (column df (key a)) with
    | Ok v => ret (set_col df (key a) v)
    | Err e => _ <- tell (warn a e) ;; ret df
    end
  else ret df.

Fixpoint loop (df : table) (items : list A) : M table :=
  match items with
  | [] => ret df
  | a :: rest => df' <- step df a ;; loop df' rest
  end.

(** The warnings one item writes: one when its column is present and its
    conversion raised, none otherwise. *)
Definition item_warnings (df : table) (a : A) : list diag :=
  if mem (key a) (columns df) then
    match conv a (column df (key a)) with
    | Ok _ => []
    | Err e => [warn a e]
    end
  else [].

Definition converted (df : table) (a : A) : list cell :=
  match conv a (column df (key a)) with
  | Ok v => v
  | Err _ => column df (key a)
  end.

Lemma step_spec df a :
  wf df ->
  exists df1, snd (step df a) = Ok df1
    /\ wf df1 /\ columns df1 = columns df
    /\ List.length (rows df1) = List.length (rows df)
    /\ (forall c, c <> key a -> column df1 c = column df c)
    /\ (In (key a) (columns df) -> column df1 (key a) = converted df a)
    /\ (forall x, In x (fst (step df a))
                  <-> In (key a) (columns df)
                      /\ exists e, conv a (column df (key a)) = Err e /\ x = warn a e)
    /\ fst (step df a) = item_warnings df a.
Proof.
  intros Hwf. unfold step, converted, item_warnings.
  destruct (mem (key a) (columns df)) eqn:Em.
  - apply mem_In in Em.
    destruct (conv a (column df (key a))) as [v|e] eqn:Ec.
    + assert (Hlen : List.length v = List.length (rows df)).
      { apply conv_length in Ec. rewrite Ec. unfold column. apply length_map. }
      exists (set_col df (key a) v). split; [reflexivity|].
      split; [apply Cols.set_col_wf, Hwf|].
      split; [apply set_col_present, Em|].
      split; [apply Cols.set_col_rows_length, Hlen|].
      split; [intros c Hc; apply Cols.column_set_col_other; auto|].
      split; [intros _; apply Cols.column_set_col_same; auto|].
      split; [|reflexivity].
      intros x. simpl. split; [intros []|intros (_ & e & He & _); discriminate].
    + exists df. split; [reflexivity|].
      split; [exact Hwf|]. split; [reflexivity|]. split; [reflexivity|].
      split; [reflexivity|]. split; [reflexivity|].
      split; [|reflexivity].
      intros x. simpl. split.
      * intros [<-|[]]. split; [exact Em|]. exists e. auto.
      * intros (_ & e' & He' & ->). injection He' as ->. left. reflexivity.
  - apply mem_false in Em.
    exists df. split; [reflexivity|].
    split; [exact Hwf|]. split; [reflexivity|]. split; [reflexivity|].
    split; [reflexivity|]. split; [intros H; contradiction|].
    split; [|reflexivity].
    intros x. simpl. split; [intros []|intros [H _]; contradiction].
Qed.

(** Without any assumption on the items: the loop never raises, keeps
    the labels and the number of rows, and only writes warnings. *)
Lemma loop_shape items df :
  wf df ->
  exists t, snd (loop df items) = Ok t
    /\ wf t /\ columns t = columns df
    /\ List.length (rows t) = List.length (rows df)
    /\ (forall x, In x (fst (loop df items)) -> exists a e, In a items /\ x = warn a e).
Proof.
  revert df; induction items as [|a rest IH]; intros df Hwf.
  - exists df. simpl. repeat split; auto. intros x [].
  - destruct (step_spec df a Hwf) as (df1 & H1 & Hwf1 & Hc1 & Hr1 & _ & _ & Hlog1 & _).
    cbn [loop]. rewrite (Loader.bind_ok_eq _ _ _ H1). cbn [fst snd].
    destruct (IH df1 Hwf1) as (t & Ht & Hwft & Hct & Hrt & Hlogt).
    exists t. split; [exact Ht|]. split; [exact Hwft|].
    split; [congruence|]. split; [congruence|].
    intros x Hx. apply in_app_or in Hx as [Hx|Hx].
    + apply Hlog1 in Hx as (_ & e & _ & ->). exists a, e. split; [left|]; reflexivity.
    + destruct (Hlogt x Hx) as (a' & e & Ha' & ->). exists a', e. split; [right|]; auto.
Qed.

(** With distinct column names: each named column present in the table
    ends up converted (or unchanged when the conversion raised), every
    other column is unchanged, and the warnings are exactly those of the
    conversions that raised, one per such item, in the order of the
    items. *)
Lemma loop_spec items df :
  wf df -> NoDup (map key items) ->
  exists t, snd (loop df items) = Ok t
    /\ wf t /\ columns t = columns df
    /\ List.length (rows t) = List.length (rows df)
    /\ (forall c, ~ In c (map key items) -> column t c = column df c)
    /\ (forall a, In a items -> In (key a) (columns df) -> column t (key a) = converted df a)
    /\ (forall x, In x (fst (loop df items))
                  <-> exists a, In a items /\ In (key a) (columns df)
                                /\ exists e, conv a (column df (key a)) = Err e
                                             /\ x = warn a e)
    /\ fst (loop df items) = flat_map (item_warnings df) items.
Proof.
  revert df; induction items as [|a rest IH]; intros df Hwf Hnd.
  - exists df. simpl. repeat split; auto.
    + intros a [].
    + intros [].
    + intros (a & [] & _).
  - cbn [map] in Hnd. inversion Hnd as [|? ? Hnot Hnd']; subst.
    destruct (step_spec df a Hwf)
      as (df1 & H1 & Hwf1 & Hc1 & Hr1 & Hoth1 & Hsame1 & Hlog1 & Hw1).
    cbn [loop]. rewrite (Loader.bind_ok_eq _ _ _ H1). cbn [fst snd].
    destruct (IH df1 Hwf1 Hnd')
      as (t & Ht & Hwft & Hct & Hrt & Hotht & Hsamet & Hlogt & Hwt).
    assert (Hrest : forall a', In a' rest -> key a' <> key a).
    { intros a' Ha' E. apply Hnot. rewrite <- E. apply in_map, Ha'. }
    assert (Hconv : forall a', In a' rest -> converted df1 a' = converted df a').
    { intros a' Ha'. unfold converted. rewrite (Hoth1 _ (Hrest a' Ha')). reflexivity. }
    exists t. split; [exact Ht|]. split; [exact Hwft|].
    split; [congruence|]. split; [congruence|].
    split; [|split; [|split]].
    + intros c Hc. rewrite Hotht by (intros H; apply Hc; right; exact H).
      apply Hoth1. intros ->. apply Hc. left. reflexivity.
    + intros a' [<-|Ha'] Hin.
      * rewrite Hotht by exact Hnot. apply Hsame1, Hin.
      * rewrite Hsamet by (auto; rewrite Hc1; exact Hin). apply Hconv, Ha'.
    + intros x. rewrite in_app_iff, Hlog1, Hlogt. split.
      * intros [(Hin & e & He & ->)|(a' & Ha' & Hin & e & He & ->)].
        -- exists a. split; [left; reflexivity|]. split; [exact Hin|]. eauto.
        -- exists a'. split; [right; exact Ha'|]. rewrite Hc1 in Hin.
           split; [exact Hin|]. exists e. rewrite <- (Hoth1 _ (Hrest a' Ha')). auto.
      * intros (a' & [<-|Ha'] & Hin & e & He & ->).
        -- left. eauto.
        -- right. exists a'. split; [exact Ha'|]. rewrite Hc1.
           split; [exact Hin|]. exists e. rewrite (Hoth1 _ (Hrest a' Ha')). auto.
    + cbn [flat_map]. rewrite Hw1, Hwt. f_equal.
      rewrite !flat_map_concat_map. f_equal. apply map_ext_in. intros a' Ha'.
      unfold item_warnings. rewrite Hc1, (Hoth1 _ (Hrest a' Ha')). reflexivity.
Qed.

End Loop.

Lemma cast_columns_loop dtype_valid cast_cell df dm :
  cast_columns dtype_valid cast_cell df dm
  = loop (string * string) fst
         (fun p vals => astype dtype_valid cast_cell vals (snd p))
         (fun p e => Warn_cast (fst p) (snd p) e) df dm.
Proof.
  revert df; induction dm as [|[c d] dm IH]; intros df; [reflexivity|].
  cbn [cast_columns loop]. unfold step. cbn [fst snd].
  apply bind_ext. intros df'. apply IH.
Qed.

Lemma parse_date_columns_loop coerce_date to_datetime_error df pd :
  parse_date_columns coerce_date to_datetime_error df pd
  = loop string (fun c => c)
         (fun _ vals => to_datetime coerce_date to_datetime_error vals)
         (fun c e => Warn_dates c e) df pd.
Proof.
  revert df; induction pd as [|c pd IH]; intros df; [reflexivity|].
  cbn [parse_date_columns loop]. unfold step.
  apply bind_ext. intros df'. apply IH.
Qed.

Lemma to_datetime_length coerce_date to_datetime_error vals vs :
  to_datetime coerce_date to_datetime_error vals = Ok vs -> List.length vs = List.length vals.
Proof.
  unfold to_datetime. destruct (to_datetime_error vals); [discriminate|].
  intros H. injection H as <-. apply length_map.
Qed.

End ColumnLoop.

Module Labels.

Lemma char_step_lower c :
  py_lower_char (Normalize.char_step true true c) = Normalize.char_step true true c.
Proof. destruct c as [[] [] [] [] [] [] [] []]; reflexivity. Qed.

Lemma char_step_not_space c : Ascii.eqb (Normalize.char_step true true c) " "%char = false.
Proof. destruct c as [[] [] [] [] [] [] [] []]; reflexivity. Qed.

Lemma list_ascii_str_map h s :
  list_ascii_of_string (str_map h s) = map h (list_ascii_of_string s).
Proof. induction s as [|c s IH]; simpl; congruence. Qed.

End Labels.

(** With all three switches on (as [read_csv] calls it), every label
    produced by [normalize_columns] is already stripped, already
    lowercase, and contains no space. *)
Theorem normalize_columns_labels (df : table) (c : string) :
  In c (columns (normalize_columns df true true true)) ->
  py_strip c = c /\ py_lower c = c /\ ~ In " "%char (list_ascii_of_string c).
Proof.
  cbn [normalize_columns columns]. intros H.
  apply in_map_iff in H as [s [<- _]].
  rewrite Normalize.clean_as_map. cbn [negb].
  split; [|split].
  - apply Normalize.strip_map_stripped, Normalize.char_step_nonspace.
  - unfold py_lower. rewrite Normalize.str_map_map.
    apply Normalize.str_map_ext, Labels.char_step_lower.
  - rewrite Labels.list_ascii_str_map. intros Hin.
    apply in_map_iff in Hin as [x [Hx _]].
    pose proof (Labels.char_step_not_space x) as E. rewrite Hx in E. discriminate.
Qed.

(** The cast loop of [read_csv], for a [dtype_map] (a dict, so with
    distinct column names): it never raises and keeps the labels and the
    row count; each listed column present in the table holds the result of
    its [astype] when that succeeded and its old values otherwise; every
    other column is unchanged; the warnings written are one per present
    column whose [astype] raised and no other, in the order of
    [dtype_map]. *)
Theorem cast_columns_outcome (dtype_valid : string -> bool)
    (cast_cell : string -> cell -> result cell) (df : table)
    (dtype_map : list (string * string)) :
  wf df -> NoDup (map fst dtype_map) ->
  exists t, snd (cast_columns dtype_valid cast_cell df dtype_map) = Ok t
    /\ wf t /\ columns t = columns df
    /\ List.length (rows t) = List.length (rows df)
    /\ (forall col, ~ In col (map fst dtype_map) -> column t col = column df col)
    /\ (forall col dtype, In (col, dtype) dtype_map -> In col (columns df) ->
          column t col = match astype dtype_valid cast_cell (column df col) dtype with
                         | Ok v => v
                         | Err _ => column df col
                         end)
    /\ (forall d, In d (fst (cast_columns dtype_valid cast_cell df dtype_map))
          <-> exists col dtype e, In (col, dtype) dtype_map /\ In col (columns df)
                /\ astype dtype_valid cast_cell (column df col) dtype = Err e
                /\ d = Warn_cast col dtype e)
    /\ fst (cast_columns dtype_valid cast_cell df dtype_map)
       = flat_map (fun '(col, dtype) =>
                     if mem col (columns df) then
                       match astype dtype_valid cast_cell (column df col) dtype with
                       | Ok _ => []
                       | Err e => [Warn_cast col dtype e]
                       end
                     else []) dtype_map.
Proof.
  intros Hwf Hnd. rewrite ColumnLoop.cast_columns_loop.
  destruct (ColumnLoop.loop_spec (string * string) fst
              (fun p vals => astype dtype_valid cast_cell vals (snd p))
              (fun p e => Warn_cast (fst p) (snd p) e)
              (fun p vals vs H => Loader.astype_length _ _ _ _ _ H) dtype_map df Hwf Hnd)
    as (t & Ht & Hwft & Hct & Hrt & Hoth & Hconv & Hlog & Hw).
  exists t. split; [exact Ht|]. split; [exact Hwft|]. split; [exact Hct|].
  split; [exact Hrt|]. split; [exact Hoth|]. split; [|split].
  - intros col dtype Hin Hcol. apply (Hconv (col, dtype) Hin Hcol).
  - intros d. rewrite Hlog. split.
    + intros ([col dtype] & Hin & Hcol & e & He & ->). exists col, dtype, e. auto.
    + intros (col & dtype & e & Hin & Hcol & He & ->). exists (col, dtype).
      split; [exact Hin|]. split; [exact Hcol|]. exists e. auto.
  - rewrite Hw, !flat_map_concat_map. f_equal. apply map_ext. intros [c d]. reflexivity.
Qed.

(** The date loop of [read_csv], for a list of distinct column names: it
    never raises and keeps the labels and the row count; each listed column
    present in the table holds its cells passed through the coercing
    conversion, unless [pd.to_datetime] refused the column, which then
    keeps its values; every other column is unchanged; the warnings written
    are one per present column that was refused and no other, in the order
    of [parse_dates]. *)
Theorem parse_date_columns_outcome (coerce_date : list cell -> cell -> cell)
    (to_datetime_error : list cell -> option exn) (df : table) (parse_dates : list string) :
  wf df -> NoDup parse_dates ->
  exists t, snd (parse_date_columns coerce_date to_datetime_error df parse_dates) = Ok t
    /\ wf t /\ columns t = columns df
    /\ List.length (rows t) = List.length (rows df)
    /\ (forall col, ~ In col parse_dates -> column t col = column df col)
    /\ (forall col, In col parse_dates -> In col (columns df) ->
          column t col = match to_datetime_error (column df col) with
                         | None => map (coerce_date (column df col)) (column df col)
                         | Some _ => column df col
                         end)
    /\ (forall d, In d (fst (parse_date_columns coerce_date to_datetime_error df parse_dates))
          <-> exists col e, In col parse_dates /\ In col (columns df)
                /\ to_datetime_error (column df col) = Some e
                /\ d = Warn_dates col e)
    /\ fst (parse_date_columns coerce_date to_datetime_error df parse_dates)
       = flat_map (fun col =>
                     if mem col (columns df) then
                       match to_datetime_error (column df col) with
                       | Some e => [Warn_dates col e]
                       | None => []
                       end
                     else []) parse_dates.
Proof.
  intros Hwf Hnd. rewrite ColumnLoop.parse_date_columns_loop.
  rewrite <- (map_id parse_dates) in Hnd.
  destruct (ColumnLoop.loop_spec string (fun c => c)
              (fun _ vals => to_datetime coerce_date to_datetime_error vals)
              (fun c e => Warn_dates c e)
              (fun _ vals vs H => ColumnLoop.to_datetime_length _ _ _ _ H)
              parse_dates df Hwf Hnd)
    as (t & Ht & Hwft & Hct & Hrt & Hoth & Hconv & Hlog & Hw).
  exists t. split; [exact Ht|]. split; [exact Hwft|]. split; [exact Hct|].
  split; [exact Hrt|]. split; [|split; [|split]].
  - intros col Hcol. apply Hoth. rewrite map_id. exact Hcol.
  - intros col Hin Hcol. rewrite (Hconv col Hin Hcol).
    unfold ColumnLoop.converted, to_datetime.
    destruct (to_datetime_error (column df col)); reflexivity.
  - intros d. rewrite Hlog. unfold to_datetime. split.
    + intros (col & Hin & Hcol & e & He & ->). exists col, e.
      destruct (to_datetime_error (column df col)); [|discriminate].
      injection He as ->. auto.
    + intros (col & e & Hin & Hcol & He & ->). exists col.
      split; [exact Hin|]. split; [exact Hcol|]. exists e. rewrite He. auto.
  - rewrite Hw, !flat_map_concat_map. f_equal. apply map_ext. intros c.
    unfold ColumnLoop.item_warnings, to_datetime.
    destruct (mem c (columns df)); [destruct (to_datetime_error (column df c))|];
      reflexivity.
Qed.

(** A [read_csv] run whose file was read never raises: the table it
    returns has the labels of the file (renamed first when a rename map is
    given) after normalization, as many rows as the file, and the only
    lines it writes to stderr are cast and date warnings for entries of
    [dtype_map] and [parse_dates]. *)
Theorem read_csv_loaded (pd_read_csv : string -> option table)
    (dtype_valid : string -> bool) (cast_cell : string -> cell -> result cell)
    (coerce_date : list cell -> cell -> cell) (to_datetime_error : list cell -> option exn)
    (path : string) (dtype_map : list (string * string)) (parse_dates : list string)
    (rename_map : list (string * string)) (raw : table) :
  pd_read_csv path = Some raw -> wf raw ->
  exists t, snd (read_csv pd_read_csv dtype_valid cast_cell coerce_date to_datetime_error
                   path dtype_map parse_dates rename_map) = Ok t
    /\ wf t
    /\ columns t = map (clean true true true)
                       (columns (if is_nil rename_map then raw else rename raw rename_map))
    /\ List.length (rows t) = List.length (rows raw)
    /\ (forall d, In d (fst (read_csv pd_read_csv dtype_valid cast_cell coerce_date
                               to_datetime_error path dtype_map parse_dates rename_map)) ->
          (exists col dtype e, In (col, dtype) dtype_map /\ d = Warn_cast col dtype e)
          \/ (exists col e, In col parse_dates /\ d = Warn_dates col e)).
Proof.
  intros Hraw Hwf. unfold read_csv. rewrite Hraw.
  rewrite (Loader.bind_ok_eq _ _ raw) by reflexivity.
  set (df0 := normalize_columns (if is_nil rename_map then raw else rename raw rename_map)
                true true true).
  assert (Hwf0 : wf df0).
  { intros r Hr. unfold df0 in *. cbn [normalize_columns rows columns] in *.
    rewrite length_map. destruct (is_nil rename_map); cbn [rename rows columns] in *;
      [|rewrite length_map]; apply Hwf, Hr. }
  assert (Hr0 : List.length (rows df0) = List.length (rows raw))
    by (unfold df0; destruct (is_nil rename_map); reflexivity).
  rewrite ColumnLoop.cast_columns_loop.
  destruct (ColumnLoop.loop_shape (string * string) fst
              (fun p vals => astype dtype_valid cast_cell vals (snd p))
              (fun p e => Warn_cast (fst p) (snd p) e)
              (fun p vals vs H => Loader.astype_length _ _ _ _ _ H) dtype_map df0 Hwf0)
    as (t1 & H1 & Hwf1 & Hc1 & Hrows1 & Hlog1).
  rewrite (Loader.bind_ok_eq _ _ _ H1). rewrite ColumnLoop.parse_date_columns_loop.
  destruct (ColumnLoop.loop_shape string (fun c => c)
              (fun _ vals => to_datetime coerce_date to_datetime_error vals)
              (fun c e => Warn_dates c e)
              (fun _ vals vs H => ColumnLoop.to_datetime_length _ _ _ _ H)
              parse_dates t1 Hwf1)
    as (t2 & H2 & Hwf2 & Hc2 & Hrows2 & Hlog2).
  exists t2. cbn [fst snd]. split; [exact H2|]. split; [exact Hwf2|].
  split; [rewrite Hc2, Hc1; reflexivity|]. split; [congruence|].
  intros d Hd. apply in_app_or in Hd as [[]|Hd]. apply in_app_or in Hd as [Hd|Hd].
  - left. destruct (Hlog1 d Hd) as ([col dtype] & e & Hin & ->). exists col, dtype, e. auto.
  - right. destruct (Hlog2 d Hd) as (col & e & Hin & ->). exists col, e. auto.
Qed.

(* ------------------------------------------------------------------ *)
(** ** Instances of the further properties *)

Module Fixtures.

(** A file with untidy labels. *)
Definition padded : table :=
  mk_table [" Customer ID "; "Name"] [[Some "1"; Some "Ann"]].

Definition files (p : string) : option table :=
  if String.eqb p "customers.csv" then Some Samples.customers
  else if String.eqb p "orders.csv" then Some Samples.orders
  else if String.eqb p "raw.csv" then Some padded
  else None.

Definition int64_only (d : string) : bool := String.eqb d "Int64".

Definition keep_cell (_ : string) (c : cell) : result cell := Ok c.

Definition no_date (_ : list cell) (_ : cell) : cell := None.

Definition never_refused (_ : list cell) : option exn := None.

End Fixtures.

Lemma drop_dupes_on_missing_keys_witness :
  In "zip" ["customer_id"; "zip"] /\ ~ In "zip" (columns Samples.customers)
  /\ drop_dupes_on Samples.customers ["customer_id"; "zip"] "last"
     = ([], Err (KeyError (Msg_keys_not_found ["zip"]))).
Proof.
  assert (H1 : In "zip" ["customer_id"; "zip"]) by (right; left; reflexivity).
  assert (H2 : ~ In "zip" (columns Samples.customers))
    by (simpl; intros [H|[H|[]]]; discriminate).
  split; [exact H1|]. split; [exact H2|].
  destruct (drop_dupes_on_missing_keys Samples.customers ["customer_id"; "zip"] "last" "zip"
              H1 H2) as [E _].
  exact E.
Defined.

Lemma drop_dupes_on_first_spec_witness :
  ["id"] <> []
  /\ (forall k, In k ["id"] -> In k (columns Samples.repeated))
  /\ exists out log, drop_dupes_on Samples.repeated ["id"] "first" = (log, Ok out)
       /\ NoDup (keys_of out ["id"]) /\ rows out = [[Some "1"; Some "x"]].
Proof.
  assert (H : forall k, In k ["id"] -> In k (columns Samples.repeated))
    by (intros k [<-|[]]; left; reflexivity).
  assert (H0 : ["id"] <> []) by discriminate.
  split; [exact H0|]. split; [exact H|].
  destruct (drop_dupes_on_first_spec Samples.repeated ["id"] H0 H)
    as (out & log & E & _ & Hnd & _).
  exists out, log. split; [exact E|]. split; [exact Hnd|].
  vm_compute in E. injection E as _ <-. reflexivity.
Defined.

Lemma drop_dupes_on_removed_log_witness :
  ["id"] <> []
  /\ (forall k, In k ["id"] -> In k (columns Samples.repeated))
  /\ ("last" = "first" \/ "last" = "last")
  /\ exists out, drop_dupes_on Samples.repeated ["id"] "last"
                 = ([Info_removed 1 ["id"]], Ok out)
                 /\ List.length (rows out) <= 2.
Proof.
  assert (H1 : forall k, In k ["id"] -> In k (columns Samples.repeated))
    by (intros k [<-|[]]; left; reflexivity).
  assert (H2 : "last" = "first" \/ "last" = "last") by (right; reflexivity).
  assert (H0 : ["id"] <> []) by discriminate.
  split; [exact H0|]. split; [exact H1|]. split; [exact H2|].
  destruct (drop_dupes_on_removed_log Samples.repeated ["id"] "last" H0 H1 H2)
    as (out & E & Hle & _ & _).
  exists out. split; [|exact Hle].
  pose proof E as E'. vm_compute in E'. injection E' as _ <-. exact E.
Defined.

Lemma resolve_conflicts_left_right_witness :
  wf Examples.contacts
  /\ NoDup (map fst [("email", "left"); ("city", "coalesce")])
  /\ In ("email", "left") [("email", "left"); ("city", "coalesce")]
  /\ ("left" = "left" \/ "left" = "right")
  /\ In ("email" ++ "_left")%string (columns Examples.contacts)
  /\ In ("email" ++ "_right")%string (columns Examples.contacts)
  /\ (forall b s, In (b, s) [("email", "left"); ("city", "coalesce")] -> b <> "email" ->
        b <> ("email" ++ "_left")%string /\ b <> ("email" ++ "_right")%string)
  /\ snd (resolve_conflicts Examples.contacts [("email", "left"); ("city", "coalesce")]
                            ("_left", "_right")) = None
  /\ column (fst (resolve_conflicts Examples.contacts [("email", "left"); ("city", "coalesce")]
                                    ("_left", "_right"))) "email"
     = [Some "a@x.com"].
Proof.
  assert (Hwf : wf Examples.contacts) by (intros r [<-|[]]; reflexivity).
  assert (Hnd : NoDup (map fst [("email", "left"); ("city", "coalesce")])).
  { simpl. constructor; [intros [H|[]]; discriminate|].
    constructor; [intros []|constructor]. }
  assert (Hin : In ("email", "left") [("email", "left"); ("city", "coalesce")])
    by (left; reflexivity).
  assert (Hs : "left" = "left" \/ "left" = "right") by (left; reflexivity).
  assert (Hl : In ("email" ++ "_left")%string (columns Examples.contacts))
    by (right; right; right; left; reflexivity).
  assert (Hr : In ("email" ++ "_right")%string (columns Examples.contacts))
    by (right; right; right; right; left; reflexivity).
  assert (Hni : forall b s, In (b, s) [("email", "left"); ("city", "coalesce")] ->
                  b <> "email" ->
                  b <> ("email" ++ "_left")%string /\ b <> ("email" ++ "_right")%string).
  { intros b s [E|[E|[]]] Hb; injection E as <- <-; [contradiction|].
    split; discriminate. }
  assert (Hok : snd (resolve_conflicts Examples.contacts
                       [("email", "left"); ("city", "coalesce")] ("_left", "_right")) = None)
    by reflexivity.
  repeat (split; [assumption|]).
  rewrite (resolve_conflicts_left_right Examples.contacts _ "_left" "_right" "email" "left"
             Hwf Hnd Hin Hs Hl Hr Hni Hok).
  reflexivity.
Defined.

Lemma resolve_conflicts_preserves_witness :
  wf Examples.contacts
  /\ column (fst (resolve_conflicts Examples.contacts [("city", "coalesce")]
                                    ("_left", "_right"))) "city_left"
     = column Examples.contacts "city_left".
Proof.
  assert (Hwf : wf Examples.contacts) by (intros r [<-|[]]; reflexivity).
  split; [exact Hwf|].
  destruct (resolve_conflicts_preserves Examples.contacts [("city", "coalesce")]
              ("_left", "_right") Hwf) as (_ & _ & _ & C).
  apply C. simpl. intros [H|[]]. discriminate.
Defined.

Lemma resolve_conflicts_no_overlap_witness :
  (forall b s, In (b, s) [("id", "newest")] ->
     ~ In (b ++ "_left")%string (columns Examples.contacts)
     \/ ~ In (b ++ "_right")%string (columns Examples.contacts))
  /\ resolve_conflicts Examples.contacts [("id", "newest")] ("_left", "_right")
     = (Examples.contacts, None).
Proof.
  assert (H : forall b s, In (b, s) [("id", "newest")] ->
                ~ In (b ++ "_left")%string (columns Examples.contacts)
                \/ ~ In (b ++ "_right")%string (columns Examples.contacts)).
  { intros b s [E|[]]. injection E as <- <-. left. simpl.
    intros [E|[E|[E|[E|[E|[]]]]]]; discriminate. }
  split; [exact H|]. exact (resolve_conflicts_no_overlap Examples.contacts _ _ _ H).
Defined.


Lemma quick_merge_counts_partition_witness :
  ~ In "_merge" (map fst [("name", "coalesce")])
  /\ exists merged c,
       snd (quick_merge_with_audit Fixtures.files Fixtures.int64_only Fixtures.keep_cell
              Fixtures.no_date Fixtures.never_refused "customers.csv" "orders.csv"
              ["customer_id"] Outer [("customer_id", "Int64")] [] [] [] [] ["customer_id"]
              None ("_left", "_right") [("name", "coalesce")])
       = Ok (merged, c)
       /\ audit_counts merged = Ok c
       /\ left_only c + right_only c + both c = total_rows c
       /\ total_rows c = List.length (rows merged).
Proof.
  assert (Hn : ~ In "_merge" (map fst [("name", "coalesce")]))
    by (simpl; intros [H|[]]; discriminate).
  split; [exact Hn|].
  match eval vm_compute in
    (snd (quick_merge_with_audit Fixtures.files Fixtures.int64_only Fixtures.keep_cell
            Fixtures.no_date Fixtures.never_refused "customers.csv" "orders.csv"
            ["customer_id"] Outer [("customer_id", "Int64")] [] [] [] [] ["customer_id"]
            None ("_left", "_right") [("name", "coalesce")])) with
  | Ok (?m, ?c) =>
      assert (E : snd (quick_merge_with_audit Fixtures.files Fixtures.int64_only
                         Fixtures.keep_cell Fixtures.no_date Fixtures.never_refused
                         "customers.csv" "orders.csv" ["customer_id"] Outer
                         [("customer_id", "Int64")] [] [] [] [] ["customer_id"]
                         None ("_left", "_right") [("name", "coalesce")]) = Ok (m, c))
        by (vm_compute; reflexivity);
      exists m, c
  end.
  split; [exact E|].
  exact (quick_merge_counts_partition Fixtures.files Fixtures.int64_only Fixtures.keep_cell
           Fixtures.no_date Fixtures.never_refused "customers.csv" "orders.csv"
           ["customer_id"] Outer [("customer_id", "Int64")] [] [] [] [] ["customer_id"]
           None ("_left", "_right") [("name", "coalesce")] _ _ Hn E).
Defined.

Lemma cli_samples_match_counts_witness :
  exists merged c,
    merge_frames Samples.left_outer Samples.right_outer ["id"] Outer None
                 ("_left", "_right") true = Ok merged
    /\ audit_counts merged = Ok c
    /\ List.length (rows (select_eq merged "_merge" "left_only")) = left_only c
    /\ List.length (rows (select_eq merged "_merge" "right_only")) = right_only c.
Proof.
  match eval vm_compute in
    (merge_frames Samples.left_outer Samples.right_outer ["id"] Outer None
                  ("_left", "_right") true) with
  | Ok ?m => pose (m0 := m)
  end.
  exists m0.
  match eval vm_compute in (audit_counts m0) with
  | Ok ?c => pose (c0 := c)
  end.
  exists c0.
  split; [vm_compute; reflexivity|].
  assert (Hc : audit_counts m0 = Ok c0) by (vm_compute; reflexivity).
  split; [exact Hc|].
  destruct (cli_samples_match_counts m0 c0 Hc) as (H1 & H2 & _).
  split; [exact H1|exact H2].
Defined.

Lemma merge_frames_key_counts_witness :
  exists M,
    merge_frames Samples.customers Samples.orders ["customer_id"] Left None
                 ("_left", "_right") true = Ok M
    /\ key_count [Some "1"] (keys_of M ["customer_id"]) = 2
    /\ key_count [Some "2"] (keys_of M ["customer_id"]) = 1.
Proof.
  match eval vm_compute in
    (merge_frames Samples.customers Samples.orders ["customer_id"] Left None
                  ("_left", "_right") true) with
  | Ok ?m => pose (m0 := m)
  end.
  exists m0.
  assert (E : merge_frames Samples.customers Samples.orders ["customer_id"] Left None
                           ("_left", "_right") true = Ok m0) by (vm_compute; reflexivity).
  split; [exact E|]. split.
  - exact (merge_frames_key_counts _ _ _ _ _ _ _ [Some "1"] E).
  - exact (merge_frames_key_counts _ _ _ _ _ _ _ [Some "2"] E).
Defined.

Lemma merge_frames_audit_by_how_witness :
  exists M,
    merge_frames Samples.left_outer Samples.right_outer ["id"] Outer None
                 ("_left", "_right") true = Ok M
    /\ audit_counts M = Ok (mk_counts 1 1 1 3).
Proof.
  match eval vm_compute in
    (merge_frames Samples.left_outer Samples.right_outer ["id"] Outer None
                  ("_left", "_right") true) with
  | Ok ?m => pose (m0 := m)
  end.
  exists m0.
  assert (E : merge_frames Samples.left_outer Samples.right_outer ["id"] Outer None
                           ("_left", "_right") true = Ok m0) by (vm_compute; reflexivity).
  split; [exact E|].
  exact (merge_frames_audit_by_how _ _ _ _ _ _ _ E).
Defined.

Lemma normalize_columns_labels_witness :
  In "customer_id" (columns (normalize_columns Fixtures.padded true true true))
  /\ py_strip "customer_id" = "customer_id" /\ py_lower "customer_id" = "customer_id"
  /\ ~ In " "%char (list_ascii_of_string "customer_id").
Proof.
  assert (H : In "customer_id" (columns (normalize_columns Fixtures.padded true true true)))
    by (left; reflexivity).
  split; [exact H|]. exact (normalize_columns_labels Fixtures.padded "customer_id" H).
Defined.

Lemma cast_columns_outcome_witness :
  wf Samples.ages /\ NoDup (map fst [("customer_id", "Int64"); ("age", "float64")])
  /\ exists t,
       snd (cast_columns Fixtures.int64_only Fixtures.keep_cell Samples.ages
              [("customer_id", "Int64"); ("age", "float64")]) = Ok t
       /\ column t "customer_id" = [Some "1"]
       /\ column t "age" = [Some "abc"]
       /\ In (Warn_cast "age" "float64" (TypeError (Msg_dtype_not_understood "float64")))
             (fst (cast_columns Fixtures.int64_only Fixtures.keep_cell Samples.ages
                     [("customer_id", "Int64"); ("age", "float64")]))
       /\ fst (cast_columns Fixtures.int64_only Fixtures.keep_cell Samples.ages
                [("customer_id", "Int64"); ("age", "float64")])
          = [Warn_cast "age" "float64" (TypeError (Msg_dtype_not_understood "float64"))].
Proof.
  assert (Hwf : wf Samples.ages) by (intros r [<-|[]]; reflexivity).
  assert (Hnd : NoDup (map fst [("customer_id", "Int64"); ("age", "float64")])).
  { simpl. constructor; [intros [H|[]]; discriminate|].
    constructor; [intros []|constructor]. }
  split; [exact Hwf|]. split; [exact Hnd|].
  destruct (cast_columns_outcome Fixtures.int64_only Fixtures.keep_cell Samples.ages _ Hwf Hnd)
    as (t & Ht & _ & _ & _ & _ & Hconv & Hlog & Hw).
  exists t. split; [exact Ht|]. split; [|split; [|split]].
  - rewrite (Hconv "customer_id" "Int64"); [reflexivity|left; reflexivity|left; reflexivity].
  - rewrite (Hconv "age" "float64");
      [reflexivity|right; left; reflexivity|right; left; reflexivity].
  - apply Hlog. exists "age", "float64", (TypeError (Msg_dtype_not_understood "float64")).
    split; [right; left; reflexivity|]. split; [right; left; reflexivity|].
    split; reflexivity.
  - rewrite Hw. reflexivity.
Defined.

Lemma parse_date_columns_outcome_witness :
  wf Samples.ages /\ NoDup ["age"]
  /\ exists t,
       snd (parse_date_columns Fixtures.no_date Fixtures.never_refused Samples.ages ["age"])
       = Ok t
       /\ column t "age" = [None] /\ column t "customer_id" = [Some "1"]
       /\ fst (parse_date_columns Fixtures.no_date Fixtures.never_refused Samples.ages ["age"])
          = [].
Proof.
  assert (Hwf : wf Samples.ages) by (intros r [<-|[]]; reflexivity).
  assert (Hnd : NoDup ["age"]) by (constructor; [intros []|constructor]).
  split; [exact Hwf|]. split; [exact Hnd|].
  destruct (parse_date_columns_outcome Fixtures.no_date Fixtures.never_refused Samples.ages
              ["age"] Hwf Hnd) as (t & Ht & _ & _ & _ & Hoth & Hconv & Hlog & _).
  exists t. split; [exact Ht|]. split; [|split].
  - rewrite (Hconv "age"); [reflexivity|left; reflexivity|right; left; reflexivity].
  - rewrite Hoth; [reflexivity|]. intros [H|[]]. discriminate.
  - assert (Hnone : forall d, ~ In d (fst (parse_date_columns Fixtures.no_date
                                             Fixtures.never_refused Samples.ages ["age"]))).
    { intros d Hd. apply Hlog in Hd as (col & e & _ & _ & He & _). discriminate. }
    destruct (fst (parse_date_columns Fixtures.no_date Fixtures.never_refused Samples.ages
                     ["age"])) as [|d ds]; [reflexivity|].
    exfalso. apply (Hnone d). left. reflexivity.
Defined.

Lemma read_csv_loaded_witness :
  Fixtures.files "raw.csv" = Some Fixtures.padded /\ wf Fixtures.padded
  /\ exists t,
       snd (read_csv Fixtures.files Fixtures.int64_only Fixtures.keep_cell Fixtures.no_date
              Fixtures.never_refused "raw.csv" [] [] []) = Ok t
       /\ columns t = ["customer_id"; "name"]
       /\ List.length (rows t) = 1.
Proof.
  assert (H1 : Fixtures.files "raw.csv" = Some Fixtures.padded) by reflexivity.
  assert (H2 : wf Fixtures.padded) by (intros r [<-|[]]; reflexivity).
  split; [exact H1|]. split; [exact H2|].
  destruct (read_csv_loaded Fixtures.files Fixtures.int64_only Fixtures.keep_cell
              Fixtures.no_date Fixtures.never_refused "raw.csv" [] [] [] Fixtures.padded H1 H2)
    as (t & Ht & _ & Hc & Hr & _).
  exists t. split; [exact Ht|]. split; [rewrite Hc; reflexivity|exact Hr].
Defined.

(* ------------------------------------------------------------------ *)
(** ** The report written by the command line *)

Module Report.

Lemma cell_eqb_Some_eq a v : cell_eqb a (Some v) = true -> a = Some v.
Proof.
  destruct a as [x|]; simpl; [|discriminate].
  intros H. apply String.eqb_eq in H. subst x. reflexivity.
Qed.

Lemma in_firstn_in {A} n (l : list A) x : In x (firstn n l) -> In x l.
Proof. intros H. rewrite <- (firstn_skipn n l). apply in_or_app. left. exact H. Qed.

Lemma select_eq_count t v :
  List.length (rows (select_eq t "_merge" v)) = count_value v (column t "_merge").
Proof.
  unfold select_eq, count_value, column. cbn [rows].
  induction (rows t) as [|r rs IH]; simpl; [reflexivity|].
  destruct (cell_eqb _ _); simpl; rewrite IH; reflexivity.
Qed.

(** One sample section, with [sample_size=5] as the command line passes. *)
Lemma sample_section (to_string : table -> string) merged v title :
  In "_merge" (columns merged) ->
  df_to_text to_string 5 (Some (select_eq merged "_merge" v)) title
  = (if Nat.eqb (count_value v (column merged "_merge")) 0
     then [(title ++ ": (none)")%string]
     else [(title ++ " (showing up to " ++ py_str_int 5 ++ "):")%string;
           to_string (head (select_eq merged "_merge" v) 5)])
  /\ List.length (rows (head (select_eq merged "_merge" v) 5))
     = Nat.min 5 (count_value v (column merged "_merge"))
  /\ columns (head (select_eq merged "_merge" v) 5) = columns merged
  /\ (forall r, In r (rows (head (select_eq merged "_merge" v) 5)) ->
        In r (rows merged) /\ get (columns merged) r "_merge" = Some v).
Proof.
  intros Hin. rewrite <- select_eq_count.
  split; [|split; [|split]].
  - unfold df_to_text, df_empty.
    change (columns (select_eq merged "_merge" v)) with (columns merged).
    assert (Hc : is_nil (columns merged) = false)
      by (destruct (columns merged); [destruct Hin|reflexivity]).
    rewrite Hc. cbn [orb].
    destruct (rows (select_eq merged "_merge" v)); reflexivity.
  - unfold head. cbn [rows]. rewrite length_firstn. reflexivity.
  - reflexivity.
  - intros r Hr. unfold head in Hr. cbn [rows] in Hr. apply in_firstn_in in Hr.
    unfold select_eq in Hr. cbn [rows] in Hr. apply filter_In in Hr as [Hr He].
    split; [exact Hr|]. apply cell_eqb_Some_eq, He.
Qed.

End Report.

(** The report the command line writes after a merge (the counts of
    [audit_counts], samples [merged[merged["_merge"] == "left_only"]] and
    [... == "right_only"], [sample_size=5]): the five header lines give
    the counts, and each sample section is the line "<title>: (none)"
    when its count is zero, otherwise a title line and the rendering of
    the first [min 5 count] rows of that sample, all rows of the merged
    table with that tag. *)
Theorem cli_report_lines (to_string : table -> string) (merged : table) (c : counts) :
  audit_counts merged = Ok c ->
  report_lines to_string (counts_items c)
    (Some (select_eq merged "_merge" "left_only"))
    (Some (select_eq merged "_merge" "right_only")) 5
  = ["=== Merge Audit Report ===";
     ("Total rows in merged output: " ++ py_str_int (Z.of_nat (total_rows c)))%string;
     ("Matched on both sides      : " ++ py_str_int (Z.of_nat (both c)))%string;
     ("Left-only rows             : " ++ py_str_int (Z.of_nat (left_only c)))%string;
     ("Right-only rows            : " ++ py_str_int (Z.of_nat (right_only c)))%string;
     ""]
    ++ (if Nat.eqb (left_only c) 0 then ["Examples of LEFT-ONLY rows: (none)"]
        else ["Examples of LEFT-ONLY rows (showing up to 5):";
              to_string (head (select_eq merged "_merge" "left_only") 5)])
    ++ [""]
    ++ (if Nat.eqb (right_only c) 0 then ["Examples of RIGHT-ONLY rows: (none)"]
        else ["Examples of RIGHT-ONLY rows (showing up to 5):";
              to_string (head (select_eq merged "_merge" "right_only") 5)])
  /\ List.length (rows (head (select_eq merged "_merge" "left_only") 5))
     = Nat.min 5 (left_only c)
  /\ List.length (rows (head (select_eq merged "_merge" "right_only") 5))
     = Nat.min 5 (right_only c)
  /\ (forall r, In r (rows (head (select_eq merged "_merge" "left_only") 5)) ->
        In r (rows merged) /\ get (columns merged) r "_merge" = Some "left_only")
  /\ (forall r, In r (rows (head (select_eq merged "_merge" "right_only") 5)) ->
        In r (rows merged) /\ get (columns merged) r "_merge" = Some "right_only").
Proof.
  unfold audit_counts. destruct (negb (mem "_merge" (columns merged))) eqn:Em;
    [discriminate|].
  intros H. injection H as <-. cbn [left_only right_only both total_rows].
  assert (Hin : In "_merge" (columns merged))
    by (apply mem_In; destruct (mem "_merge" (columns merged)); [reflexivity|discriminate]).
  destruct (Report.sample_section to_string merged "left_only" "Examples of LEFT-ONLY rows" Hin)
    as (EL & LL & _ & RL).
  destruct (Report.sample_section to_string merged "right_only" "Examples of RIGHT-ONLY rows"
              Hin) as (ER & LR & _ & RR).
  split; [|split; [exact LL|split; [exact LR|split; [exact RL|exact RR]]]].
  unfold report_lines. rewrite EL, ER.
  reflexivity.
Qed.

Lemma cli_report_lines_witness :
  exists merged c,
    merge_frames Samples.customers Samples.orders ["customer_id"] Outer None
                 ("_left", "_right") true = Ok merged
    /\ audit_counts merged = Ok c
    /\ report_lines (fun _ => "<rows>") (counts_items c)
         (Some (select_eq merged "_merge" "left_only"))
         (Some (select_eq merged "_merge" "right_only")) 5
       = ["=== Merge Audit Report ==="; "Total rows in merged output: 4";
          "Matched on both sides      : 2"; "Left-only rows             : 1";
          "Right-only rows            : 1"; "";
          "Examples of LEFT-ONLY rows (showing up to 5):"; "<rows>"; "";
          "Examples of RIGHT-ONLY rows (showing up to 5):"; "<rows>"].
Proof.
  match eval vm_compute in
    (merge_frames Samples.customers Samples.orders ["customer_id"] Outer None
                  ("_left", "_right") true) with
  | Ok ?m => pose (m0 := m)
  end.
  exists m0.
  match eval vm_compute in (audit_counts m0) with
  | Ok ?c => pose (c0 := c)
  end.
  exists c0.
  split; [vm_compute; reflexivity|].
  assert (Hc : audit_counts m0 = Ok c0) by (vm_compute; reflexivity).
  split; [exact Hc|].
  destruct (cli_report_lines (fun _ => "<rows>") m0 c0 Hc) as (E & _).
  rewrite E. vm_compute. reflexivity.
Defined.
